(** * Sunrise Hospital EMR System: the data pipeline of hospital_EMR_system.py

    A shallow embedding of the script's functions (fetch_and_clean_data,
    filter_by_age, analyze_data, visualize_data, save_analysis,
    get_age_range and the menu loop of main) over a small model of the
    pandas objects they work on.

    Modelling decisions, all of them visible in the definitions below:
    - a DataFrame is its row index (the labels pandas keeps through
      filtering) and its ordered, named, typed columns;
    - a column is either an int64 column or an object column of str / missing
      values (None, NaN); float64 columns are not represented; the integers
      of an int64 column are not bounded here, and nothing but comparison and
      the conversion to float64 computes on them;
    - Python exceptions are values of [exn]; a computation that may raise has
      type [result A], one that also prints or writes files has type [io A];
    - Python str is modelled by Rocq's [string], a string of bytes: text
      beyond ASCII is not represented;
    - a float64 is one of Rocq's primitive binary64 floats, with the IEEE 754
      operations of the kernel (round to nearest, ties to even). *)

From Stdlib Require Import ZArith String Ascii List Floats.
From stdpp Require Import base gmap sets list strings pretty.

Local Open Scope string_scope.
Local Open Scope Z_scope.
Local Open Scope list_scope.

(** ** Scalars, exceptions and results *)

(** A Python scalar that is used as a key: column labels are str or int,
    the keys of a value_counts dict are the values of the column. *)
Inductive scalar :=
| IntV (z : Z)
| StrV (s : string).

#[global] Instance scalar_eq_dec : EqDecision scalar.
Proof. solve_decision. Defined.

#[global] Instance scalar_countable : Countable scalar.
Proof.
  refine (inj_countable'
            (λ v, match v with IntV z => inl z | StrV s => inr s end)
            (λ x, match x with inl z => IntV z | inr s => StrV s end) _).
  by intros [].
Defined.

(** A Python number: an int or a float64 (which may be NaN). *)
Inductive number :=
| PyInt (z : Z)
| PyFloat (x : float).

(** The exceptions the script can meet. [RequestException] stands for the
    whole class requests.exceptions.RequestException (ConnectionError,
    Timeout, HTTPError, JSONDecodeError, ...); the argument is str(err).
    [NameError] is what the use of an unbound global name raises. *)
Inductive exn :=
| RequestException (msg : string)
| KeyError (key : scalar)
| ValueError (msg : string)
| TypeError (msg : string)
| AttributeError (msg : string)
| NameError (msg : string)
| EOFError.

Inductive result (A : Type) :=
| Ok (a : A)
| Raise (e : exn).
Arguments Ok {A} a.
Arguments Raise {A} e.

Definition bind {A B} (r : result A) (k : A → result B) : result B :=
  match r with
  | Ok a => k a
  | Raise e => Raise e
  end.

Notation "x ←' r ; k" := (bind r (λ x, k))
  (at level 20, r at level 100, k at level 200, right associativity,
   format "x  ←'  r ;  '/' k").

(** ** The pandas model *)

Inductive Series :=
| Int64 (values : list Z)
| Object (values : list (option string)).

Definition series_len (s : Series) : nat :=
  match s with
  | Int64 vs => length vs
  | Object vs => length vs
  end.

Record DataFrame := mkDataFrame {
  index : list nat;
  columns : list (string * Series)
}.

(** [pd.DataFrame()]: no rows and no columns. *)
Definition pd_DataFrame : DataFrame :=
  {| index := []; columns := [] |}.

(** [len(df)] *)
Definition len (df : DataFrame) : nat := length (index df).

(** [df.empty]: true when either axis has length 0. *)
Definition empty (df : DataFrame) : bool :=
  match index df, columns df with
  | [], _ => true
  | _, [] => true
  | _, _ => false
  end.

Fixpoint lookup_column (c : string) (cols : list (string * Series))
  : option Series :=
  match cols with
  | [] => None
  | (c', s) :: cols => if String.eqb c c' then Some s else lookup_column c cols
  end.

(** [df[c]] for a column label c: KeyError when there is no such column. *)
Definition getitem (df : DataFrame) (c : string) : result Series :=
  match lookup_column c (columns df) with
  | Some s => Ok s
  | None => Raise (KeyError (StrV c))
  end.

(** [c in df.columns] *)
Definition has_column (c : string) (df : DataFrame) : bool :=
  existsb (String.eqb c) (map fst (columns df)).

(** What pandas guarantees of every frame it builds: the column labels are
    distinct here (they come from JSON object keys and from [df[c] = v]) and
    every column is as long as the index. *)
Fixpoint distinct (l : list string) : bool :=
  match l with
  | [] => true
  | x :: l => negb (existsb (String.eqb x) l) && distinct l
  end.

Definition well_formed (df : DataFrame) : bool :=
  distinct (map fst (columns df))
  && forallb (λ cs, Nat.eqb (series_len (snd cs)) (len df)) (columns df).

Definition has_str (vs : list (option string)) : bool :=
  existsb (λ v, match v with Some _ => true | None => false end) vs.

(** [s >= n] and [s <= n] for an int n. On an object column pandas compares
    cell by cell: a missing value compares False, a str against an int raises
    TypeError. *)
Definition series_compare (op : Z → Z → bool) (opname : string)
    (s : Series) (n : Z) : result (list bool) :=
  match s with
  | Int64 vs => Ok (map (λ v, op v n) vs)
  | Object vs =>
      if has_str vs
      then Raise (TypeError ("'" ++ opname ++
             "' not supported between instances of 'str' and 'int'")%string)
      else Ok (map (λ _, false) vs)
  end.

Definition series_ge := series_compare Z.geb ">=".
Definition series_le := series_compare Z.leb "<=".

(** [m1 & m2] on two boolean Series taken from the same frame. *)
Definition mask_and (m1 m2 : list bool) : list bool := zip_with andb m1 m2.

(** Boolean indexing: the positions where the mask is True, in order. *)
Fixpoint select {A} (mask : list bool) (l : list A) : list A :=
  match mask, l with
  | b :: mask, x :: l => if b then x :: select mask l else select mask l
  | _, _ => []
  end.

Definition series_select (mask : list bool) (s : Series) : Series :=
  match s with
  | Int64 vs => Int64 (select mask vs)
  | Object vs => Object (select mask vs)
  end.

(** [df[mask]]: the selected rows keep their index labels, every column
    keeps its label and dtype. *)
Definition getitem_mask (df : DataFrame) (mask : list bool) : DataFrame :=
  {| index := select mask (index df);
     columns :=
       map (λ cs, (fst cs, series_select mask (snd cs))) (columns df) |}.

(** ** Console and file effects *)

(** A printed or written line ([Print []] is a blank line): literal text
    with the values an f-string or print renders into it, kept as values. *)
Inductive piece :=
| Lit (s : string)
| OfNat (n : nat)
| OfNumber (x : number)
| OfExn (e : exn)
| OfFrame (df : DataFrame).

(** [Input] is the prompt that [input(prompt)] writes before it reads a line.
    [PrintItems d] and the [items] of [WriteFile] stand for the loop over
    [d.items()], one line "- {condition}: {count}" per entry, in the
    iteration order of the dict, which the model does not fix. *)
Inductive event :=
| Print (line : list piece)
| Input (prompt : string)
| PrintItems (d : gmap scalar nat)
| WriteFile (filename : string) (lines : list (list piece))
    (items : gmap scalar nat).

Definition io (A : Type) : Type := (list event * result A)%type.

Definition io_bind {A B} (m : io A) (k : A → io B) : io B :=
  match m with
  | (out, Ok a) => let '(out', r) := k a in (out ++ out', r)
  | (out, Raise e) => (out, Raise e)
  end.

Notation "x ⇐ m ; k" := (io_bind m (λ x, k))
  (at level 20, m at level 100, k at level 200, right associativity,
   format "x  ⇐  m ;  '/' k").

Definition print {A} (line : list piece) (k : io A) : io A :=
  let '(out, r) := k in (Print line :: out, r).

Definition pure {A} (r : result A) : io A := ([], r).

(** ** Filter patients by age range *)

Definition age_mask (df : DataFrame) (min_age max_age : Z)
  : result (list bool) :=
  a ←' getitem df "age";
  m1 ←' series_ge a min_age;
  a' ←' getitem df "age";
  m2 ←' series_le a' max_age;
  Ok (mask_and m1 m2).

Definition filter_by_age (df : DataFrame) (min_age max_age : Z)
  : io DataFrame :=
  match (m ←' age_mask df min_age max_age; Ok (getitem_mask df m)) with
  | Ok r => ([], Ok r)
  | Raise (KeyError _) =>
      ([Print [Lit "Age column not found."]], Ok pd_DataFrame)
  | Raise e => ([], Raise e)
  end.

(** ** Analyze data *)

Record Summary := mkSummary {
  total_patients : nat;
  unique_domains : nat;
  condition_counts : gmap scalar nat;
  mean_age : number
}.

(** [s.str]: only an object column has the accessor. *)
Definition str_accessor (s : Series) : result (list (option string)) :=
  match s with
  | Object vs => Ok vs
  | Int64 _ =>
      Raise (AttributeError "Can only use .str accessor with string values!")
  end.

(** Python's [s.split(sep)] for a one-character separator. *)
Fixpoint split (sep : ascii) (s : string) : list string :=
  match s with
  | EmptyString => [EmptyString]
  | String c s' =>
      if Ascii.eqb c sep then EmptyString :: split sep s'
      else match split sep s' with
           | h :: t => String c h :: t
           | [] => [String c EmptyString]
           end
  end.

(** [.str.split(sep, expand=True)]: one row of fields per cell, a missing
    cell giving the one-field row [NaN]. The expanded frame has the columns
    0 .. width-1, short rows padded with None. *)
Definition cons_row (sep : ascii) (v : option string)
  : list (option string) :=
  match v with
  | Some s => map Some (split sep s)
  | None => [None]
  end.

Definition str_split (sep : ascii) (vs : list (option string))
  : list (list (option string)) :=
  map (cons_row sep) vs.

Definition width (rows : list (list (option string))) : nat :=
  foldr Nat.max 0%nat (map length rows).

(** [expanded[k]] for an int column label k. *)
Definition expanded_getitem (rows : list (list (option string))) (k : nat)
  : result (list (option string)) :=
  if (k <? width rows)%nat
  then Ok (map (λ r, nth k r None) rows)
  else Raise (KeyError (IntV (Z.of_nat k))).

(** [.nunique()]: the number of distinct values, missing ones dropped. *)
Definition nunique (vs : list (option string)) : nat :=
  size (list_to_set (omap id vs) : gset string).

(** The values of a column that are not missing. *)
Definition present (s : Series) : list scalar :=
  match s with
  | Int64 vs => map IntV vs
  | Object vs => omap (option_map StrV) vs
  end.

Definition count_one (v : scalar) (d : gmap scalar nat) : gmap scalar nat :=
  <[v := S (default 0%nat (d !! v))]> d.

(** [.value_counts().to_dict()]: missing values are dropped. *)
Definition value_counts (s : Series) : gmap scalar nat :=
  foldr count_one ∅ (present s).

(** The float64 nearest to an integer, ties to even: the conversion of an
    int64 value to float64. It is also used for the number of rows and for
    10**ndigits, which float64 holds exactly. *)
Definition float_of_Z (z : Z) : float :=
  SF2Prim (binary_normalize prec emax z 0 false).

(** The sum of an int64 column in float64, as [.mean()] takes it: every
    value is converted and added to the running sum, from first to last.
    (numpy adds the values of a column of eight rows or more in another
    order; the float is the same whenever the partial sums are exact, as
    they are for integers below 2^53.) *)
Definition series_sum (vs : list Z) : float :=
  fold_left (λ acc v, (acc + float_of_Z v)%float) vs 0%float.

(** [.mean()]: the float64 sum divided by the number of values, NaN when
    there is nothing to average. *)
Definition series_mean (s : Series) : result float :=
  match s with
  | Int64 [] => Ok nan
  | Int64 vs =>
      Ok (series_sum vs / float_of_Z (Z.of_nat (length vs)))%float
  | Object vs =>
      if has_str vs
      then Raise (TypeError "Could not convert string to numeric")
      else Ok nan
  end.

(** The integer nearest to n / d for 0 < d, ties to even. *)
Definition nearest_even (n d : Z) : Z :=
  let fl := n / d in
  let r := n mod d in
  if 2 * r <? d then fl
  else if d <? 2 * r then fl + 1
  else if Z.even fl then fl else fl + 1.

(** [rint]: the float64 of the nearest integer, ties to even; zero keeps its
    sign, infinities and NaN are returned as they are. *)
Definition rint (x : float) : float :=
  match Prim2SF x with
  | S754_finite s m e =>
      if 0 <=? e then x
      else
        let n := nearest_even (Z.pos m) (2 ^ (- e)) in
        if n =? 0 then (if s then (-0)%float else 0%float)
        else float_of_Z (if s then - n else n)
  | _ => x
  end.

(** [round(x, ndigits)] for the numpy.float64 that [.mean()] returns. Its
    [__round__] is numpy's: multiply by 10**ndigits, round to the nearest
    integer, divide by 10**ndigits, every step in float64. (It is not the
    correctly rounded [round] of a Python float: round(2.675, 2) is 2.68
    here and 2.67 there.) *)
Definition round (x : float) (ndigits : nat) : float :=
  let f := float_of_Z (10 ^ Z.of_nat ndigits) in
  (rint (x * f) / f)%float.

Definition at_sign : ascii := "@"%char.

Definition analyze_data (df : DataFrame) : result Summary :=
  if empty df then
    Ok {| total_patients := 0;
          unique_domains := 0;
          condition_counts := ∅;
          mean_age := PyInt 0 |}
  else
    let total_patients := len df in
    e ←' getitem df "email";
    st ←' str_accessor e;
    domains ←' expanded_getitem (str_split at_sign st) 1;
    let unique_domains := nunique domains in
    c ←' getitem df "condition";
    let condition_counts := value_counts c in
    a ←' getitem df "age";
    m ←' series_mean a;
    let mean_age := PyFloat (round m 2) in
    Ok {| total_patients := total_patients;
          unique_domains := unique_domains;
          condition_counts := condition_counts;
          mean_age := mean_age |}.

(** ** Fetch and clean patient data *)

(** [df[c] = values] for a list (or a Series taken from df itself, whose
    index is that of df). A frame without rows takes the length of the
    values as its new index, its old columns filled with missing values
    (kept here in object columns); otherwise the lengths must agree. An
    existing column is replaced in place, a new one is appended. *)
Fixpoint set_column (c : string) (s : Series) (cols : list (string * Series))
  : list (string * Series) :=
  match cols with
  | [] => [(c, s)]
  | (c', s') :: cols =>
      if String.eqb c c' then (c, s) :: cols
      else (c', s') :: set_column c s cols
  end.

Definition setitem (df : DataFrame) (c : string) (s : Series)
  : result DataFrame :=
  match index df, series_len s with
  | [], S n =>
      Ok {| index := seq 0 (S n);
            columns := set_column c s
              (map (λ cs, (fst cs, Object (replicate (S n) None)))
                 (columns df)) |}
  | _, n =>
      if Nat.eqb n (len df)
      then Ok {| index := index df; columns := set_column c s (columns df) |}
      else Raise (ValueError
             ("Length of values (" ++ pretty n ++
              ") does not match length of index (" ++ pretty (len df) ++
              ")")%string)
  end.

(** Python's [str.lower] on the bytes of ASCII text: the letters A-Z are
    mapped to a-z and every other byte is kept. (str.lower also maps the
    cased code points beyond ASCII, which the strings of the model do not
    have.) *)
Definition lower_char (c : ascii) : ascii :=
  let n := nat_of_ascii c in
  if ((65 <=? n) && (n <=? 90))%nat then ascii_of_nat (n + 32) else c.

Fixpoint lower (s : string) : string :=
  match s with
  | EmptyString => EmptyString
  | String c s' => String (lower_char c) (lower s')
  end.

(** [.str.lower()]: missing values stay missing. *)
Definition str_lower (vs : list (option string)) : Series :=
  Object (map (option_map lower) vs).

(** What [requests.get(url, timeout=10)] and the calls on its response can
    give. [Failed] is a RequestException raised by the request itself
    (no connection, timeout, too many redirects, ...). The body of a response
    either is not JSON ([response.json()] raises requests' JSONDecodeError,
    a RequestException since requests 2.27), or decodes to data from which
    [pd.DataFrame(data)] builds no frame (ValueError), or decodes to the
    records of the frame [raw]. *)
Inductive json :=
| NoFrame (msg : string)
| Records (raw : DataFrame).

Inductive payload :=
| NotJSON (msg : string)
| JSON (data : json).

Inductive outcome :=
| Failed (msg : string)
| Response (url : string) (status_code : Z) (reason : string)
    (body : payload).

(** [response.raise_for_status()]: HTTPError for 4xx and 5xx; [url] is
    [response.url]. *)
Definition raise_for_status (status_code : Z) (reason url : string)
  : result unit :=
  if (400 <=? status_code) && (status_code <? 500) then
    Raise (RequestException
             (pretty status_code ++ " Client Error: " ++ reason ++
              " for url: " ++ url)%string)
  else if (500 <=? status_code) && (status_code <? 600) then
    Raise (RequestException
             (pretty status_code ++ " Server Error: " ++ reason ++
              " for url: " ++ url)%string)
  else Ok tt.

Definition response_json (body : payload) : result json :=
  match body with
  | NotJSON msg => Raise (RequestException msg)
  | JSON data => Ok data
  end.

(** [pd.DataFrame(data)] *)
Definition pd_DataFrame_of (data : json) : result DataFrame :=
  match data with
  | Records raw => Ok raw
  | NoFrame msg => Raise (ValueError msg)
  end.

Definition custom_names : list string :=
  [ "Amani Mwangi"; "Neema Hassan"; "Juma Odhiambo"; "Zawadi Nyerere";
    "Baraka Kimani"; "Fatuma Ali"; "Hassan Abdallah";
    "Rehema Mussa"; "Joseph Kibet"; "Salma Suleiman" ].

Definition simulated_ages : list Z :=
  [25; 34; 45; 52; 29; 41; 38; 60; 33; 48].

Definition simulated_conditions : list string :=
  [ "Flu"; "Hypertension"; "Diabetes"; "Fever";
    "Flu"; "Hypertension"; "Diabetes"; "Hypertension";
    "Fever"; "Flu" ].

(** Lines 22-44: the frame of the records, then the four column
    assignments. *)
Definition clean (data : json) : result DataFrame :=
  df ←' pd_DataFrame_of data;
  df ←' setitem df "name" (Object (map Some custom_names));
  e ←' getitem df "email";
  st ←' str_accessor e;
  df ←' setitem df "email" (str_lower st);
  df ←' setitem df "age" (Int64 simulated_ages);
  df ←' setitem df "condition" (Object (map Some simulated_conditions));
  Ok df.

Section Fetcher.

(** The network: what a GET of the URL gives. *)
Variable requests_get : string → outcome.

(** The body of the try block. *)
Definition fetch (url : string) : result DataFrame :=
  match requests_get url with
  | Failed msg => Raise (RequestException msg)
  | Response response_url status_code reason body =>
      _ ←' raise_for_status status_code reason response_url;
      data ←' response_json body;
      clean data
  end.

Definition fetch_and_clean_data (url : string) : io DataFrame :=
  match fetch url with
  | Ok df => ([], Ok df)
  | Raise (RequestException msg) =>
      ([Print [Lit "Error fetching data: "; OfExn (RequestException msg)]],
       Ok pd_DataFrame)
  | Raise e => ([], Raise e)
  end.

End Fetcher.

(** ** Visualizations and the saved report *)

(** [df[[c1; ...; cn]]]: the listed columns, KeyError when one is absent. *)
Fixpoint getitem_columns (df : DataFrame) (cs : list string)
  : result (list (string * Series)) :=
  match cs with
  | [] => Ok []
  | c :: cs =>
      s ←' getitem df c;
      rest ←' getitem_columns df cs;
      Ok ((c, s) :: rest)
  end.

Definition getitem_list (df : DataFrame) (cs : list string)
  : result DataFrame :=
  cols ←' getitem_columns df cs;
  Ok {| index := index df; columns := cols |}.

(** The script imports matplotlib.pyplot under the name plt25 (line 5) and
    binds the name plt nowhere, so the first chart call of visualize_data,
    plt.figure at line 96, raises NameError: no chart is drawn or saved, and
    the lines 97-129 never run. Only the early return for an empty
    condition_counts completes. *)
Definition plt_unbound : exn := NameError "name 'plt' is not defined".

Definition visualize_data (analysis : Summary) (df : DataFrame)
    (filtered : bool) : io unit :=
  if bool_decide (condition_counts analysis = ∅) then
    print [Lit "No data to visualize."] (pure (Ok tt))
  else pure (Raise plt_unbound).

Definition report_lines (analysis : Summary) : list (list piece) :=
  [ [Lit "Sunrise Hospital EMR Analysis Summary"];
    [Lit "-----------------------------------"];
    [Lit "Total Patients: "; OfNat (total_patients analysis)];
    [Lit "Unique Email Domains: "; OfNat (unique_domains analysis)];
    [Lit "Mean Age: "; OfNumber (mean_age analysis)];
    [Lit "Condition Frequencies:"] ].

Section Session.

(** The environment of a run: the network, Python's [int] on a line of
    input (None for ValueError), and the IOError, if any, that opening a
    file for writing meets. *)
Variable requests_get : string → outcome.
Variable int_ : string → option Z.
Variable open_error : string → option string.

Definition save_analysis (analysis : Summary) (filename : string)
  : io unit :=
  match open_error filename with
  | Some err => ([Print [Lit "File error: "; Lit err]], Ok tt)
  | None =>
      ([WriteFile filename (report_lines analysis)
          (condition_counts analysis)], Ok tt)
  end.

(** [input(prompt)]: EOFError when the input is exhausted. *)
Definition input {A} (prompt : string) (stdin : list string)
    (k : string → list string → io A) : io A :=
  match stdin with
  | [] => ([Input prompt], Raise EOFError)
  | line :: rest => let '(out, r) := k line rest in (Input prompt :: out, r)
  end.

Fixpoint get_age_range (stdin : list string) : io (Z * Z * list string) :=
  input "Enter minimum age: " stdin (λ line1 rest1,
    match int_ line1 with
    | None =>
        print [Lit "Please enter valid numbers."] (get_age_range rest1)
    | Some min_age =>
        input "Enter maximum age: " rest1 (λ line2 rest2,
          match int_ line2 with
          | None =>
              print [Lit "Please enter valid numbers."] (get_age_range rest2)
          | Some max_age =>
              if (min_age <? 0) || (max_age <? min_age) then
                print [Lit "Invalid age range. Try again."]
                  (get_age_range rest2)
              else pure (Ok (min_age, max_age, rest2))
          end)
    end).

(** ** Main menu *)

Definition url : string := "https://invalid-api-url.com/users".

Record session := mkSession {
  patient_data : DataFrame;
  filtered_data : DataFrame
}.

Inductive control := Continue | Break.

Definition menu {A} (k : io A) : io A :=
  print [] (print [Lit "Menu Options:"]
    (print [Lit "1. Fetch patient data"]
       (print [Lit "2. Filter patients by age"]
          (print [Lit "3. View analysis and visualizations"]
             (print [Lit "4. Exit"] k))))).

Definition fetch_patient_data (st : session) : io session :=
  patient_data ⇐ fetch_and_clean_data requests_get url;
  let filtered_data := pd_DataFrame in
  let st' := {| patient_data := patient_data;
                filtered_data := filtered_data |} in
  if negb (empty patient_data)
  then print [Lit "Patient data loaded successfully."] (pure (Ok st'))
  else print [Lit "Failed to load patient data."] (pure (Ok st')).

Definition filter_patients_by_age (st : session) (stdin : list string)
  : io (session * list string) :=
  if empty (patient_data st) then
    print [Lit "Fetch data first."] (pure (Ok (st, stdin)))
  else
    range ⇐ get_age_range stdin;
    let '(min_age, max_age, rest) := range in
    filtered_data ⇐ filter_by_age (patient_data st) min_age max_age;
    shown ⇐ pure (getitem_list filtered_data ["name"; "age"; "condition"]);
    print [OfFrame shown]
      (pure (Ok ({| patient_data := patient_data st;
                    filtered_data := filtered_data |}, rest))).

Definition view_analysis (st : session) : io session :=
  if empty (patient_data st) then
    print [Lit "Fetch data first."] (pure (Ok st))
  else
    let df := if negb (empty (filtered_data st))
              then filtered_data st else patient_data st in
    analysis ⇐ pure (analyze_data df);
    _ ⇐ visualize_data analysis df (negb (empty (filtered_data st)));
    let output_file :=
      if negb (empty (filtered_data st))
      then "filtered_analysis_summary.txt" else "analysis_summary.txt" in
    _ ⇐ save_analysis analysis output_file;
    print [] (print [Lit "Analysis Summary"]
      (print [Lit "Total Patients: "; OfNat (total_patients analysis)]
         (print [Lit "Unique Email Domains: ";
                 OfNat (unique_domains analysis)]
            (print [Lit "Mean Age: "; OfNumber (mean_age analysis)]
               (print [Lit "Condition Frequencies:"]
                  ([PrintItems (condition_counts analysis)], Ok st)))))).

(** One pass through the body of the [while True] loop. *)
Definition menu_pass (st : session) (stdin : list string)
  : io (control * session * list string) :=
  menu (input "Enter choice (1-4): " stdin (λ choice rest,
    if String.eqb choice "1" then
      st' ⇐ fetch_patient_data st; pure (Ok (Continue, st', rest))
    else if String.eqb choice "2" then
      r ⇐ filter_patients_by_age st rest; pure (Ok (Continue, fst r, snd r))
    else if String.eqb choice "3" then
      st' ⇐ view_analysis st; pure (Ok (Continue, st', rest))
    else if String.eqb choice "4" then
      print [Lit "Exiting EMR System. Goodbye!"] (pure (Ok (Break, st, rest)))
    else
      print [Lit "Invalid choice. Try again."]
        (pure (Ok (Continue, st, rest))))).

(** The loop, for at most [n] passes: None when [n] passes were not
    enough to reach the exit or an exception. *)
Fixpoint main_loop (n : nat) (st : session) (stdin : list string)
  : option (io unit) :=
  match n with
  | O => None
  | S n =>
      match menu_pass st stdin with
      | (out, Raise e) => Some (out, Raise e)
      | (out, Ok (Break, _, _)) => Some (out, Ok tt)
      | (out, Ok (Continue, st', rest)) =>
          match main_loop n st' rest with
          | Some (out', r) => Some (out ++ out', r)
          | None => None
          end
      end
  end.

Definition main (stdin : list string) : option (io unit) :=
  match main_loop (S (length stdin))
          {| patient_data := pd_DataFrame; filtered_data := pd_DataFrame |}
          stdin with
  | Some (out, r) =>
      Some (Print [] ::
            Print [Lit "Welcome to the Sunrise Hospital EMR System"] :: out, r)
  | None => None
  end.

End Session.

(** The table a report is about: "filtered" when it is not empty, "current"
    otherwise. *)
Definition report_target (st : session) : DataFrame :=
  if empty (filtered_data st) then patient_data st else filtered_data st.

Definition report_file (st : session) : string :=
  if empty (filtered_data st)
  then "analysis_summary.txt" else "filtered_analysis_summary.txt".

(** The lines that the report command prints after the file is saved. *)
Definition summary_prints (analysis : Summary) : list event :=
  [ Print [];
    Print [Lit "Analysis Summary"];
    Print [Lit "Total Patients: "; OfNat (total_patients analysis)];
    Print [Lit "Unique Email Domains: "; OfNat (unique_domains analysis)];
    Print [Lit "Mean Age: "; OfNumber (mean_age analysis)];
    Print [Lit "Condition Frequencies:"];
    PrintItems (condition_counts analysis) ].

(** min <= a <= max *)
Definition between (min_age max_age a : Z) : bool :=
  (min_age <=? a) && (a <=? max_age).

(** ** Tables as sequences of records *)

(** The Table of the specification: the frame read row by row, every record
    with its index label and its fields in column order. A field holds the
    cell's value, or nothing when the value is missing. *)
Definition cells (s : Series) : list (option scalar) :=
  match s with
  | Int64 vs => map (λ v, Some (IntV v)) vs
  | Object vs => map (option_map StrV) vs
  end.

Abbreviation fields := (list (string * option scalar)).

Definition add_column (cs : string * Series) (rs : list fields) : list fields :=
  zip_with (λ v r, (fst cs, v) :: r) (cells (snd cs)) rs.

Definition records (df : DataFrame) : list (nat * fields) :=
  zip (index df)
      (foldr add_column (map (λ _, []) (index df)) (columns df)).

Fixpoint field (c : string) (r : fields) : option scalar :=
  match r with
  | [] => None
  | (c', v) :: r => if String.eqb c c' then v else field c r
  end.

(** min <= age <= max, for the age field of a record. *)
Definition age_between (min_age max_age : Z) (r : nat * fields) : bool :=
  match field "age" (snd r) with
  | Some (IntV a) => between min_age max_age a
  | _ => false
  end.

(** ** The data model of the specification, as the claims use it *)

(** The number of occurrences of a character in a string. *)
Fixpoint occurrences (c : ascii) (s : string) : nat :=
  match s with
  | EmptyString => 0
  | String c' s' => (if Ascii.eqb c' c then 1 else 0) + occurrences c s'
  end.

Definition mentions_at (e : option string) : bool :=
  match e with
  | Some s => (0 <? occurrences at_sign s)%nat
  | None => false
  end.

(** A table the Summarizer can read: it has the email and condition columns
    (text) and the age column (integers) of an enriched record set, and at
    least one email contains an '@'. *)
Definition valid_table (df : DataFrame) : bool :=
  match lookup_column "email" (columns df),
        lookup_column "condition" (columns df),
        lookup_column "age" (columns df) with
  | Some (Object es), Some (Object _), Some (Int64 _) => existsb mentions_at es
  | _, _, _ => false
  end.

(** No cell of the column is missing. *)
Definition all_present (s : Series) : bool :=
  match s with
  | Int64 _ => true
  | Object vs =>
      forallb (λ v, match v with Some _ => true | None => false end) vs
  end.

(** The all-zero Summary. *)
Definition zero_summary : Summary :=
  {| total_patients := 0;
     unique_domains := 0;
     condition_counts := ∅;
     mean_age := PyInt 0 |}.

(** The second of the '@'-separated fields of an email: nothing for a
    missing email and for one without '@'. *)
Definition second_field (e : option string) : option string :=
  match e with
  | Some s => nth 1 (map Some (split at_sign s)) None
  | None => None
  end.

(** The substring after the '@' of an email, read as the text after the
    first '@' and as the text after the last one. *)
Fixpoint after_at (s : string) : option string :=
  match s with
  | EmptyString => None
  | String c s' => if Ascii.eqb c at_sign then Some s' else after_at s'
  end.

Fixpoint after_last_at (s : string) : option string :=
  match s with
  | EmptyString => None
  | String c s' =>
      match after_last_at s' with
      | Some d => Some d
      | None => if Ascii.eqb c at_sign then Some s' else None
      end
  end.

Definition distinct_domains (domain : string → option string)
    (es : list (option string)) : nat :=
  size (list_to_set (omap (λ e : option string, e ≫= domain) es)
        : gset string).

(** The sum of the counts of a frequency map. *)
Definition sum_counts (d : gmap scalar nat) : nat :=
  map_fold (λ _ n acc, (n + acc)%nat) 0%nat d.

(** The fetches that fail: the request raises, the status is 4xx or 5xx, or
    the body is not JSON. *)
Definition fetch_fails (o : outcome) : bool :=
  match o with
  | Failed _ => true
  | Response _ status_code _ body =>
      ((400 <=? status_code) && (status_code <? 600))
      || match body with NotJSON _ => true | _ => false end
  end.

(** Three rows that share one domain, one of them without '@'; and two rows
    whose emails have two '@' each. *)
Definition shared_domain_table : DataFrame :=
  {| index := [0; 1; 2]%nat;
     columns :=
       [ ("email", Object [Some "amani@example.com"; Some "neema@example.com";
                           Some "juma"]);
         ("age", Int64 [25; 34; 45]);
         ("condition", Object [Some "Flu"; Some "Fever"; Some "Flu"]) ] |}.

Definition two_at_table : DataFrame :=
  {| index := [0; 1]%nat;
     columns :=
       [ ("email", Object [Some "amani@clinic@nairobi.example";
                           Some "neema@clinic@mombasa.example"]);
         ("age", Int64 [25; 34]);
         ("condition", Object [Some "Flu"; Some "Fever"]) ] |}.


(** A ten-row payload and the table the Fetcher builds from it. *)
Definition sample_raw : DataFrame :=
  {| index := seq 0 10;
     columns :=
       [ ("id", Int64 [1; 2; 3; 4; 5; 6; 7; 8; 9; 10]);
         ("email", Object (map Some
            [ "Sincere@april.biz"; "Shanna@melissa.tv"; "Nathan@yesenia.net";
              "Julianne.OConner@kory.org"; "Lucio_Hettinger@annie.ca";
              "Karley_Dach@jasper.info"; "Telly.Hoeger@billy.biz";
              "Sherwood@rosamond.me"; "Chaim_McDermott@dana.io";
              "Rey.Padberg@karina.biz" ])) ] |}.

Definition sample_table : DataFrame :=
  match clean (Records sample_raw) with
  | Ok df => df
  | Raise _ => pd_DataFrame
  end.

(** A network that answers with the ten-row payload, and one on which the
    request fails, as it does for the URL of the script. *)
Definition sample_net (u : string) : outcome :=
  Response u 200 "OK" (JSON (Records sample_raw)).

Definition unreachable_net (u : string) : outcome :=
  Failed "Failed to resolve 'invalid-api-url.com'".

(** The session at start-up, and after a successful load. *)
Definition empty_session : session :=
  {| patient_data := pd_DataFrame; filtered_data := pd_DataFrame |}.

Definition sample_session : session :=
  {| patient_data := sample_table; filtered_data := pd_DataFrame |}.

(** Two rows whose conditions are missing, and the session that holds them
    as "current". *)
Definition no_condition_table : DataFrame :=
  {| index := [0; 1]%nat;
     columns :=
       [ ("email", Object [Some "amani@example.com"; Some "neema@example.com"]);
         ("age", Int64 [25; 34]);
         ("condition", Object [None; None]) ] |}.

Definition no_condition_session : session :=
  {| patient_data := no_condition_table; filtered_data := pd_DataFrame |}.

(** ** Schemas *)

Inductive dtype := int64 | object.

Definition dtype_of (s : Series) : dtype :=
  match s with
  | Int64 _ => int64
  | Object _ => object
  end.

(** [df.dtypes]: the column labels with their dtypes, in column order. *)
Definition dtypes (df : DataFrame) : list (string * dtype) :=
  map (λ cs, (fst cs, dtype_of (snd cs))) (columns df).

(** A payload whose records carry their own age field, as text. *)
Definition sample_raw_text : DataFrame :=
  {| index := [0; 1]%nat;
     columns :=
       [ ("email", Object [Some "amani@example.com"; Some "neema@example.com"]);
         ("age", Object [Some "25"; Some "thirty"]) ] |}.

(** An [int] for the sample inputs: the two numbers it knows, ValueError
    for any other line. *)
Definition sample_int (line : string) : option Z :=
  if String.eqb line "30" then Some 30
  else if String.eqb line "45" then Some 45
  else None.

(** Networks that answer with two records, and with ten records that have
    no email field. *)
Definition two_row_net (u : string) : outcome :=
  Response u 200 "OK" (JSON (Records sample_raw_text)).

Definition no_email_net (u : string) : outcome :=
  Response u 200 "OK"
    (JSON (Records
       {| index := seq 0 10;
          columns := [("id", Int64 [1; 2; 3; 4; 5; 6; 7; 8; 9; 10])] |})).

(** Three rows without any '@' in the emails, one of them missing. *)
Definition no_at_table : DataFrame :=
  {| index := [0; 1; 2]%nat;
     columns :=
       [ ("email", Object [Some "amani"; None; Some "juma"]);
         ("age", Int64 [25; 34; 45]);
         ("condition", Object [Some "Flu"; Some "Fever"; Some "Flu"]) ] |}.

(** ** Sessions the menu loop can reach *)

(** A table as the Fetcher builds it: ten rows with the fixed names, ages
    and conditions and a text email column. *)
Definition fetched (df : DataFrame) : Prop :=
  len df = 10%nat ∧
  getitem df "name" = Ok (Object (map Some custom_names)) ∧
  (∃ es, getitem df "email" = Ok (Object es)) ∧
  getitem df "age" = Ok (Int64 simulated_ages) ∧
  getitem df "condition" = Ok (Object (map Some simulated_conditions)).

Definition session_inv (st : session) : Prop :=
  (patient_data st = pd_DataFrame ∨ fetched (patient_data st)) ∧
  (filtered_data st = pd_DataFrame ∨
   ∃ min_age max_age,
     0 ≤ min_age ≤ max_age ∧
     filter_by_age (patient_data st) min_age max_age
     = ([], Ok (filtered_data st))).

Section Reachable.

Variable requests_get : string → outcome.
Variable int_ : string → option Z.
Variable open_error : string → option string.

(** The session at start-up, and the session after every pass of the menu
    loop that ends without an exception. *)
Inductive reachable : session → Prop :=
| reachable_start : reachable empty_session
| reachable_pass st stdin out c st' rest :
    reachable st →
    menu_pass requests_get int_ open_error st stdin
      = (out, Ok (c, st', rest)) →
    reachable st'.

End Reachable.

(** A network whose ten records have emails without '@', and the session
    after loading from it. *)
Definition no_at_raw : DataFrame :=
  {| index := seq 0 10;
     columns :=
       [ ("email", Object (map Some
            [ "amani"; "neema"; "juma"; "zawadi"; "baraka";
              "fatuma"; "hassan"; "rehema"; "joseph"; "salma" ])) ] |}.

Definition no_at_net (u : string) : outcome :=
  Response u 200 "OK" (JSON (Records no_at_raw)).

Definition no_at_session : session :=
  {| patient_data :=
       match clean (Records no_at_raw) with
       | Ok df => df
       | Raise _ => pd_DataFrame
       end;
     filtered_data := pd_DataFrame |}.
(** * Properties *)

(** ** Boolean indexing *)

Section Select.
Context {A B C : Type}.

Lemma select_nil_r (m : list bool) : select m (@nil A) = [].
Proof. by destruct m. Qed.

Lemma select_map (f : A → B) (m : list bool) (l : list A) :
  select m (map f l) = map f (select m l).
Proof.
  revert l. induction m as [|b m IH]; intros [|x l]; simpl; try done.
  destruct b; simpl; by rewrite IH.
Qed.

Lemma select_zip_with (f : A → B → C) (m : list bool)
    (l : list A) (k : list B) :
  select m (zip_with f l k) = zip_with f (select m l) (select m k).
Proof.
  revert l k. induction m as [|b m IH]; intros [|x l] [|y k]; simpl; try done.
  - destruct b; simpl; [done|]. by rewrite zip_with_nil_r.
  - destruct b; simpl; by rewrite IH.
Qed.

Lemma select_filter (p : A → bool) (l : list A) :
  select (map p l) l = List.filter p l.
Proof.
  induction l as [|x l IH]; simpl; [done|].
  destruct (p x); by rewrite IH.
Qed.

Lemma select_all_false (l : list A) (k : list B) :
  select (map (λ _, false) k) l = [].
Proof.
  revert l. induction k as [|y k IH]; intros [|x l]; simpl; auto.
Qed.

Lemma select_all_true (m : list bool) (l : list A) :
  forallb id m = true → (length l ≤ length m)%nat → select m l = l.
Proof.
  revert l. induction m as [|b m IH]; intros [|x l]; simpl; try done.
  - lia.
  - intros [-> Hm]%andb_prop Hl. rewrite IH; [done|done|lia].
Qed.

End Select.

(** ** Frames and their records *)

Lemma getitem_Ok df c s :
  getitem df c = Ok s ↔ lookup_column c (columns df) = Some s.
Proof.
  unfold getitem. destruct (lookup_column c (columns df)); split; congruence.
Qed.

Lemma getitem_KeyError df c :
  lookup_column c (columns df) = None →
  getitem df c = Raise (KeyError (StrV c)).
Proof. unfold getitem. by intros ->. Qed.

Lemma length_cells s : length (cells s) = series_len s.
Proof. destruct s; simpl; by rewrite length_map. Qed.

Lemma cells_select m s : cells (series_select m s) = select m (cells s).
Proof. destruct s; simpl; by rewrite select_map. Qed.

Lemma well_formed_lengths df :
  well_formed df = true →
  Forall (λ cs, series_len (snd cs) = len df) (columns df).
Proof.
  unfold well_formed. intros [_ H]%andb_prop.
  apply Forall_forall. intros cs Hcs.
  rewrite forallb_forall in H. apply Nat.eqb_eq, H. by apply list_elem_of_In.
Qed.

Lemma lookup_column_select m c cols :
  lookup_column c (map (λ cs, (fst cs, series_select m (snd cs))) cols)
  = option_map (series_select m) (lookup_column c cols).
Proof.
  induction cols as [|[c' s] cols IH]; simpl; [done|].
  by destruct (String.eqb c c').
Qed.

Lemma add_column_unfold c s rs :
  add_column (c, s) rs = zip_with (λ v r, (c, v) :: r) (cells s) rs.
Proof. done. Qed.

Lemma fields_select m base cols :
  foldr add_column (select m base)
    (map (λ cs, (fst cs, series_select m (snd cs))) cols)
  = select m (foldr add_column base cols).
Proof.
  induction cols as [|[c s] cols IH]; simpl; [done|].
  rewrite IH, !add_column_unfold. simpl.
  by rewrite cells_select, select_zip_with.
Qed.

Lemma records_getitem_mask df m :
  records (getitem_mask df m) = select m (records df).
Proof.
  unfold records, getitem_mask. simpl.
  by rewrite <- select_map, fields_select, select_zip_with.
Qed.

Lemma length_fields n base cols :
  length base = n →
  Forall (λ cs : string * Series, series_len (snd cs) = n) cols →
  length (foldr add_column base cols) = n.
Proof.
  intros Hb. induction 1 as [|[c s] cols Hs _ IH]; simpl; [done|].
  rewrite add_column_unfold, length_zip_with, length_cells, IH.
  simpl in Hs. lia.
Qed.

Lemma field_column c s n base cols :
  length base = n →
  Forall (λ cs : string * Series, series_len (snd cs) = n) cols →
  lookup_column c cols = Some s →
  map (field c) (foldr add_column base cols) = cells s.
Proof.
  intros Hb. induction 1 as [|[c' s'] cols Hs Hcols IH]; simpl; [done|].
  simpl in Hs. rewrite add_column_unfold.
  pose proof (length_fields n base cols Hb Hcols) as Hlen.
  pose proof (length_cells s') as Hc. rewrite Hs, <- Hlen in Hc.
  destruct (String.eqb c c') eqn:E.
  - intros [= ->]. clear IH Hlen Hs.
    revert Hc. generalize (foldr add_column base cols). generalize (cells s).
    induction l as [|v l IH]; intros [|r rs]; simpl; try done.
    intros [= Hl]. rewrite E. by rewrite IH.
  - intros Hl. rewrite <- (IH Hl). clear IH Hlen Hs.
    revert Hc. generalize (foldr add_column base cols). generalize (cells s').
    induction l as [|v l IH]; intros [|r rs]; simpl; try done.
    intros [= Hl']. rewrite E. by rewrite IH.
Qed.

Lemma records_field df c s :
  well_formed df = true →
  getitem df c = Ok s →
  map (λ r, field c (snd r)) (records df) = cells s.
Proof.
  intros Hwf Hc%getitem_Ok. unfold records.
  pose proof (well_formed_lengths df Hwf) as Hlens.
  assert (length (map (λ _ : nat, @nil (string * option scalar)) (index df))
          = len df) as Hb by (by rewrite length_map).
  rewrite <- (field_column c s _ _ _ Hb Hlens Hc).
  pose proof (length_fields _ _ _ Hb Hlens) as Hlen. unfold len in Hlen.
  revert Hlen.
  generalize (foldr add_column (map (λ _, []) (index df)) (columns df)).
  generalize (index df).
  induction l as [|i l IH]; intros [|r rs]; simpl; try done.
  intros [= Hl]. by rewrite IH.
Qed.

(** ** Filter patients by age range *)

Lemma age_mask_int df ages min_age max_age :
  getitem df "age" = Ok (Int64 ages) →
  age_mask df min_age max_age = Ok (map (between min_age max_age) ages).
Proof.
  intros H. unfold age_mask. rewrite H. simpl. f_equal.
  unfold mask_and, between. clear H.
  induction ages as [|a ages IH]; simpl; [done|].
  by rewrite IH, Z.geb_leb.
Qed.

Lemma filter_by_age_int df ages min_age max_age :
  getitem df "age" = Ok (Int64 ages) →
  filter_by_age df min_age max_age
  = ([], Ok (getitem_mask df (map (between min_age max_age) ages))).
Proof.
  intros H. unfold filter_by_age. by rewrite (age_mask_int _ ages).
Qed.

Lemma age_between_records df ages min_age max_age :
  well_formed df = true →
  getitem df "age" = Ok (Int64 ages) →
  map (age_between min_age max_age) (records df)
  = map (between min_age max_age) ages.
Proof.
  intros Hwf Hage. pose proof (records_field df "age" _ Hwf Hage) as H.
  simpl in H. revert H. generalize (records df). clear Hwf Hage.
  induction ages as [|a ages IH]; intros [|r rs]; simpl; try done.
  intros [= Ha Hr]. f_equal; [|by apply IH].
  unfold age_between. by rewrite Ha.
Qed.

Lemma has_column_lookup c df :
  has_column c df = false ↔ lookup_column c (columns df) = None.
Proof.
  unfold has_column.
  induction (columns df) as [|[c' s] cols IH]; simpl; [done|].
  destruct (String.eqb c c'); simpl; [split; discriminate|done].
Qed.

Lemma length_select_map_le {A B} (p : A → bool) (l : list A) (k : list B) :
  (length (select (map p l) k) ≤ length (select (map p l) l))%nat.
Proof.
  revert k. induction l as [|x l IH]; intros [|y k]; simpl; try lia.
  specialize (IH k). destruct (p x); simpl; lia.
Qed.

Lemma series_select_all_true m s :
  forallb id m = true → (series_len s ≤ length m)%nat →
  series_select m s = s.
Proof. intros Hm Hl. destruct s; simpl in *; by rewrite select_all_true. Qed.

Lemma between_filter_all min_age max_age ages :
  forallb id (map (between min_age max_age)
                (select (map (between min_age max_age) ages) ages)) = true.
Proof.
  induction ages as [|a ages IH]; simpl; [done|].
  destruct (between min_age max_age a) eqn:E; simpl; [|done].
  by rewrite E.
Qed.

Lemma between_inverted min_age max_age ages :
  max_age < min_age →
  map (between min_age max_age) ages = map (λ _, false) ages.
Proof.
  intros H. apply map_ext. intros a. unfold between.
  destruct (Z.leb_spec min_age a), (Z.leb_spec a max_age); simpl; try done. lia.
Qed.

(** C2 (as amended). For every well-formed table with an integer age column
    and every range, filter_by_age prints nothing and returns exactly the
    records whose age a satisfies min_age <= a <= max_age, in their original
    order; on the fixed synthetic age list with the range [30,45] these are
    the rows labelled 1, 2, 5, 6 and 8, of ages 34, 45, 41, 38 and 33. *)
Theorem filter_by_age_subsequence df ages min_age max_age :
  well_formed df = true →
  getitem df "age" = Ok (Int64 ages) →
  (∃ df', filter_by_age df min_age max_age = ([], Ok df') ∧
          records df'
          = List.filter (age_between min_age max_age) (records df)) ∧
  (index df = seq 0 10 → ages = simulated_ages →
   ∃ df', filter_by_age df 30 45 = ([], Ok df') ∧
          index df' = [1; 2; 5; 6; 8]%nat ∧
          getitem df' "age" = Ok (Int64 [34; 45; 41; 38; 33])).
Proof.
  intros Hwf Hage. split.
  - eexists. split; [by apply filter_by_age_int|].
    rewrite records_getitem_mask, <- (age_between_records df ages) by done.
    apply select_filter.
  - intros Hidx ->. eexists. split; [by apply filter_by_age_int|].
    apply getitem_Ok in Hage. split.
    + simpl. by rewrite Hidx.
    + apply getitem_Ok. simpl. by rewrite lookup_column_select, Hage.
Qed.

Lemma filter_by_age_subsequence_witness :
  (∃ df', filter_by_age sample_table 40 60 = ([], Ok df') ∧
          records df'
          = List.filter (age_between 40 60) (records sample_table)) ∧
  (∃ df', filter_by_age sample_table 30 45 = ([], Ok df') ∧
          index df' = [1; 2; 5; 6; 8]%nat ∧
          getitem df' "age" = Ok (Int64 [34; 45; 41; 38; 33])).
Proof.
  destruct (filter_by_age_subsequence sample_table simulated_ages 40 60
              eq_refl eq_refl) as [H1 H2].
  split; [exact H1 | exact (H2 eq_refl eq_refl)].
Defined.

(** Counterexample to C2 as stated: on the fixed synthetic ages the range
    [30,45] also keeps row 8, whose age is 33. *)
Lemma filter_by_age_positions_counterexample :
  ∃ df', filter_by_age sample_table 30 45 = ([], Ok df') ∧
         index df' = [1; 2; 5; 6; 8]%nat ∧
         getitem df' "age" = Ok (Int64 [34; 45; 41; 38; 33]) ∧
         index df' ≠ [1; 2; 5; 6]%nat ∧
         getitem df' "age" ≠ Ok (Int64 [34; 45; 41; 38]).
Proof.
  eexists. split; [reflexivity|]. repeat split; discriminate.
Qed.

(** C6. Filtering is idempotent: filtering the table that filter_by_age
    returned, with the same range, returns that same table. *)
Theorem filter_by_age_idempotent df ages min_age max_age :
  getitem df "age" = Ok (Int64 ages) →
  ∃ df', filter_by_age df min_age max_age = ([], Ok df') ∧
         filter_by_age df' min_age max_age = ([], Ok df').
Proof.
  intros Hage. eexists. split; [by apply filter_by_age_int|].
  set (m := map (between min_age max_age) ages).
  assert (getitem (getitem_mask df m) "age" = Ok (Int64 (select m ages)))
    as Hage'.
  { apply getitem_Ok. apply getitem_Ok in Hage. simpl.
    by rewrite lookup_column_select, Hage. }
  rewrite (filter_by_age_int _ _ _ _ Hage'). do 2 f_equal.
  set (m' := map (between min_age max_age) (select m ages)).
  assert (forallb id m' = true) as Hm' by apply between_filter_all.
  assert (∀ B (k : list B), (length (select m k) ≤ length m')%nat) as Hle.
  { intros B k. unfold m'. rewrite length_map. apply length_select_map_le. }
  unfold getitem_mask. simpl. f_equal.
  - by apply select_all_true.
  - induction (columns df) as [|[c s] cols IH]; simpl; [done|].
    rewrite IH. do 2 f_equal. apply series_select_all_true; [done|].
    destruct s; simpl; apply Hle.
Qed.

Lemma filter_by_age_idempotent_witness :
  ∃ df', filter_by_age sample_table 30 45 = ([], Ok df') ∧
         filter_by_age df' 30 45 = ([], Ok df').
Proof.
  apply (filter_by_age_idempotent sample_table simulated_ages 30 45).
  reflexivity.
Defined.

(** C7. A direct call with min_age > max_age returns a table without rows:
    no age satisfies the degenerate predicate. *)
Theorem filter_by_age_inverted_range df ages min_age max_age :
  getitem df "age" = Ok (Int64 ages) →
  min_age > max_age →
  ∃ df', filter_by_age df min_age max_age = ([], Ok df') ∧
         records df' = [] ∧ len df' = 0%nat ∧ empty df' = true.
Proof.
  intros Hage Hinv. eexists. split; [by apply filter_by_age_int|].
  rewrite between_inverted by lia.
  assert (index (getitem_mask df (map (λ _, false) ages)) = []) as Hidx
    by apply select_all_false.
  split; [|split].
  - rewrite records_getitem_mask. apply select_all_false.
  - unfold len. by rewrite Hidx.
  - unfold empty. by rewrite Hidx.
Qed.

Lemma filter_by_age_inverted_range_witness :
  ∃ df', filter_by_age sample_table 45 30 = ([], Ok df') ∧
         records df' = [] ∧ len df' = 0%nat ∧ empty df' = true.
Proof.
  apply (filter_by_age_inverted_range sample_table simulated_ages 45 30);
    [reflexivity | lia].
Defined.

(** C8. On a table without an age column filter_by_age returns the empty
    table and prints "Age column not found."; on a table that has the column
    it prints nothing, whatever the rows that match. *)
Theorem filter_by_age_missing_column df min_age max_age :
  has_column "age" df = false →
  filter_by_age df min_age max_age
    = ([Print [Lit "Age column not found."]], Ok pd_DataFrame)
  ∧ empty pd_DataFrame = true
  ∧ records pd_DataFrame = []
  ∧ ∀ df2 lo hi, has_column "age" df2 = true →
      fst (filter_by_age df2 lo hi) = [].
Proof.
  intros Hmiss%has_column_lookup. split; [|split; [done|split; [done|]]].
  - unfold filter_by_age, age_mask. by rewrite (getitem_KeyError _ _ Hmiss).
  - intros df2 lo hi Hhas.
    destruct (lookup_column "age" (columns df2)) as [s|] eqn:E.
    2:{ apply has_column_lookup in E. congruence. }
    apply getitem_Ok in E. unfold filter_by_age, age_mask. rewrite E. simpl.
    destruct s as [vs|vs]; simpl; [done|].
    unfold series_ge, series_le, series_compare. by destruct (has_str vs).
Qed.

Lemma filter_by_age_missing_column_witness :
  filter_by_age sample_raw 30 45
    = ([Print [Lit "Age column not found."]], Ok pd_DataFrame)
  ∧ empty pd_DataFrame = true
  ∧ records pd_DataFrame = []
  ∧ ∀ df2 lo hi, has_column "age" df2 = true →
      fst (filter_by_age df2 lo hi) = [].
Proof.
  apply (filter_by_age_missing_column sample_raw 30 45). reflexivity.
Defined.

(** ** Column assignment *)

Lemma lookup_set_column_eq c s cols :
  lookup_column c (set_column c s cols) = Some s.
Proof.
  induction cols as [|[c' s'] cols IH]; simpl.
  - by rewrite String.eqb_refl.
  - destruct (String.eqb c c') eqn:E; simpl; [by rewrite String.eqb_refl|].
    by rewrite E.
Qed.

Lemma lookup_set_column_ne c c' s cols :
  c ≠ c' → lookup_column c' (set_column c s cols) = lookup_column c' cols.
Proof.
  intros Hne. induction cols as [|[c2 s2] cols IH]; simpl.
  - destruct (String.eqb_spec c' c); congruence.
  - destruct (String.eqb_spec c c2) as [->|]; simpl.
    + destruct (String.eqb_spec c' c2); congruence.
    + by rewrite IH.
Qed.

Lemma set_column_nonempty c s cols : set_column c s cols ≠ [].
Proof.
  destruct cols as [|[c' s'] cols]; simpl; [done|].
  by destruct (String.eqb c c').
Qed.

Lemma setitem_same_length df c s :
  index df ≠ [] → series_len s = len df →
  setitem df c s
  = Ok {| index := index df; columns := set_column c s (columns df) |}.
Proof.
  intros Hidx Hlen. unfold setitem.
  destruct (index df) eqn:E; [done|].
  rewrite Hlen. rewrite Nat.eqb_refl. by destruct (len df).
Qed.

(** ** Splitting at '@' *)

Lemma split_nonempty c s : split c s ≠ [].
Proof.
  destruct s as [|a s]; simpl; [done|].
  destruct (Ascii.eqb a c); [done|]. by destruct (split c s).
Qed.

Lemma length_split c s : length (split c s) = S (occurrences c s).
Proof.
  induction s as [|a s IH]; simpl; [done|].
  destruct (Ascii.eqb a c); simpl; [by rewrite IH|].
  destruct (split c s) eqn:E; [by apply split_nonempty in E|].
  simpl in *. lia.
Qed.

Lemma lower_char_at c :
  Ascii.eqb (lower_char c) at_sign = Ascii.eqb c at_sign.
Proof.
  destruct c as [b0 b1 b2 b3 b4 b5 b6 b7].
  destruct b0, b1, b2, b3, b4, b5, b6, b7; reflexivity.
Qed.

Lemma split_lower s :
  split at_sign (lower s) = map lower (split at_sign s).
Proof.
  induction s as [|a s IH]; simpl; [done|].
  rewrite lower_char_at.
  destruct (Ascii.eqb a at_sign); simpl; [by rewrite IH|].
  rewrite IH.
  destruct (split at_sign s) eqn:E; [by apply split_nonempty in E|done].
Qed.

Lemma occurrences_lower s :
  occurrences at_sign (lower s) = occurrences at_sign s.
Proof.
  induction s as [|a s IH]; simpl; [done|]. by rewrite lower_char_at, IH.
Qed.

Lemma second_field_lower e :
  second_field (option_map lower e) = option_map lower (second_field e).
Proof.
  destruct e as [s|]; simpl; [|done]. rewrite split_lower.
  destruct (split at_sign s) as [|x [|y l]]; done.
Qed.

Lemma second_field_after_at s :
  (occurrences at_sign s ≤ 1)%nat →
  second_field (Some s) = after_at s ∧
  second_field (Some s) = after_last_at s.
Proof.
  unfold second_field.
  induction s as [|a s IH]; simpl; [done|].
  destruct (Ascii.eqb a at_sign) eqn:E; simpl.
  - intros H. assert (occurrences at_sign s = 0%nat) as H0 by lia. clear IH H.
    assert (split at_sign s = [s] ∧ after_last_at s = None) as [-> ->];
      [|done].
    induction s as [|b s IH]; simpl in *; [done|].
    destruct (Ascii.eqb b at_sign); [done|].
    destruct (IH H0) as [-> ->]. done.
  - intros H. destruct (IH H) as [IH1 IH2]. rewrite <- IH1, <- IH2.
    destruct (split at_sign s) as [|x [|y l]] eqn:Es; simpl; try done.
Qed.

Lemma second_field_none e : mentions_at e = false → second_field e = None.
Proof.
  destruct e as [s|]; simpl; [|done]. intros H%Nat.ltb_ge.
  pose proof (length_split at_sign s) as Hl.
  destruct (split at_sign s) as [|x [|y l]]; simpl in *; [done|done|lia].
Qed.

(** ** The expanded frame of fields *)

Lemma width_lt k rows :
  (k <? width rows)%nat
  = existsb (λ r : list (option string), (k <? length r)%nat) rows.
Proof.
  unfold width. induction rows as [|r rows IH]; simpl; [done|].
  rewrite <- IH.
  destruct (Nat.ltb_spec k (length r)),
    (Nat.ltb_spec k (foldr Nat.max 0%nat (map length rows)));
    simpl; apply Nat.ltb_lt || apply Nat.ltb_ge; lia.
Qed.

Lemma expanded_getitem_domains es :
  existsb mentions_at es = true →
  expanded_getitem (str_split at_sign es) 1 = Ok (map second_field es).
Proof.
  intros H. unfold expanded_getitem. rewrite width_lt.
  assert (existsb (λ r : list (option string), (1 <? length r)%nat)
            (str_split at_sign es) = true) as ->.
  { unfold str_split. rewrite existsb_exists in *.
    destruct H as (e & He & Hat). exists (cons_row at_sign e).
    split; [by apply in_map|].
    destruct e as [s|]; simpl in *; [|done].
    rewrite length_map, length_split.
    apply Nat.ltb_lt in Hat. apply Nat.ltb_lt. lia. }
  f_equal. unfold str_split. rewrite map_map. apply map_ext. by intros [s|].
Qed.

Lemma expanded_getitem_no_domain es :
  existsb mentions_at es = false →
  expanded_getitem (str_split at_sign es) 1 = Raise (KeyError (IntV 1)).
Proof.
  intros H. unfold expanded_getitem. rewrite width_lt.
  assert (existsb (λ r : list (option string), (1 <? length r)%nat)
            (str_split at_sign es) = false) as ->; [|done].
  induction es as [|e es IH]; simpl in *; [done|].
  apply orb_false_elim in H as [He Hes]. rewrite (IH Hes), orb_false_r.
  destruct e as [s|]; simpl in *; [|done].
  rewrite length_map, length_split.
  apply Nat.ltb_ge in He. apply Nat.ltb_ge. lia.
Qed.

(** ** Analyze data *)

Lemma valid_table_columns df :
  valid_table df = true →
  ∃ es cs ages,
    getitem df "email" = Ok (Object es) ∧
    getitem df "condition" = Ok (Object cs) ∧
    getitem df "age" = Ok (Int64 ages) ∧
    existsb mentions_at es = true.
Proof.
  unfold valid_table, getitem.
  destruct (lookup_column "email" (columns df)) as [[|es]|]; try done.
  destruct (lookup_column "condition" (columns df)) as [[|cs]|]; try done.
  destruct (lookup_column "age" (columns df)) as [[ages|]|]; try done.
  intros H. by exists es, cs, ages.
Qed.

Lemma series_mean_int ages : ∃ m, series_mean (Int64 ages) = Ok m.
Proof. destruct ages; simpl; eauto. Qed.

Lemma analyze_data_valid df es cs ages :
  empty df = false →
  getitem df "email" = Ok (Object es) →
  getitem df "condition" = Ok (Object cs) →
  getitem df "age" = Ok (Int64 ages) →
  existsb mentions_at es = true →
  ∃ m, series_mean (Int64 ages) = Ok m ∧
       analyze_data df
       = Ok {| total_patients := len df;
               unique_domains := nunique (map second_field es);
               condition_counts := value_counts (Object cs);
               mean_age := PyFloat (round m 2) |}.
Proof.
  intros Hne He Hc Ha Hat. destruct (series_mean_int ages) as [m Hm].
  exists m. split; [done|]. unfold analyze_data.
  rewrite Hne, He. cbn [bind str_accessor].
  rewrite (expanded_getitem_domains es Hat). cbn [bind].
  rewrite Hc. cbn [bind]. rewrite Ha. cbn [bind]. by rewrite Hm.
Qed.

Lemma analyze_data_empty df :
  empty df = true → analyze_data df = Ok zero_summary.
Proof. intros H. unfold analyze_data. by rewrite H. Qed.

Lemma empty_no_rows df : len df = 0%nat → empty df = true.
Proof. unfold len, empty. by destruct (index df). Qed.

Lemma analyze_data_inv df s :
  empty df = false →
  analyze_data df = Ok s →
  total_patients s = len df ∧
  ∃ c, getitem df "condition" = Ok c ∧ condition_counts s = value_counts c.
Proof.
  intros Hne. unfold analyze_data. rewrite Hne.
  destruct (getitem df "email") as [e|]; [|done]. cbn [bind].
  destruct (str_accessor e) as [st|]; [|done]. cbn [bind].
  destruct (expanded_getitem (str_split at_sign st) 1) as [d|]; [|done].
  cbn [bind].
  destruct (getitem df "condition") as [c|]; [|done]. cbn [bind].
  destruct (getitem df "age") as [a|]; [|done]. cbn [bind].
  destruct (series_mean a) as [m|]; [|done]. cbn [bind].
  intros [= <-]. simpl. eauto.
Qed.

Lemma expanded_getitem_Ok es d :
  expanded_getitem (str_split at_sign es) 1 = Ok d →
  d = map second_field es ∧ existsb mentions_at es = true.
Proof.
  destruct (existsb mentions_at es) eqn:E.
  - rewrite (expanded_getitem_domains es E). by intros [= <-].
  - by rewrite (expanded_getitem_no_domain es E).
Qed.

Lemma analyze_data_Ok df s :
  empty df = false →
  analyze_data df = Ok s →
  ∃ es c a m,
    getitem df "email" = Ok (Object es) ∧
    existsb mentions_at es = true ∧
    getitem df "condition" = Ok c ∧
    getitem df "age" = Ok a ∧
    series_mean a = Ok m ∧
    s = {| total_patients := len df;
           unique_domains := nunique (map second_field es);
           condition_counts := value_counts c;
           mean_age := PyFloat (round m 2) |}.
Proof.
  intros Hne. unfold analyze_data. rewrite Hne.
  destruct (getitem df "email") as [e|]; [|done]. cbn [bind].
  destruct e as [vs|es]; [done|]. cbn [bind str_accessor].
  destruct (expanded_getitem (str_split at_sign es) 1) as [d|] eqn:Ed; [|done].
  apply expanded_getitem_Ok in Ed as [-> Hat]. cbn [bind].
  destruct (getitem df "condition") as [c|]; [|done]. cbn [bind].
  destruct (getitem df "age") as [a|]; [|done]. cbn [bind].
  destruct (series_mean a) as [m|] eqn:Em; [|done]. cbn [bind].
  intros [= <-]. by exists es, c, a, m.
Qed.

Lemma analyze_data_no_domain df es :
  empty df = false →
  getitem df "email" = Ok (Object es) →
  existsb mentions_at es = false →
  analyze_data df = Raise (KeyError (IntV 1)).
Proof.
  intros Hne He Hat. unfold analyze_data. rewrite Hne, He.
  cbn [bind str_accessor]. by rewrite (expanded_getitem_no_domain es Hat).
Qed.

Lemma empty_iff df : empty df = true ↔ len df = 0%nat ∨ columns df = [].
Proof.
  unfold empty, len. destruct (index df), (columns df); simpl; split;
    try done; auto; by intros [|].
Qed.


(** ** Fetch and clean patient data *)

Lemma raise_for_status_error status_code reason u :
  (400 <=? status_code) && (status_code <? 600) = true →
  ∃ msg, raise_for_status status_code reason u = Raise (RequestException msg).
Proof.
  intros H. unfold raise_for_status.
  destruct ((400 <=? status_code) && (status_code <? 500)) eqn:E4; [eauto|].
  destruct ((500 <=? status_code) && (status_code <? 600)) eqn:E5; [eauto|].
  exfalso. lia.
Qed.

Lemma raise_for_status_ok status_code reason u :
  (400 <=? status_code) && (status_code <? 600) = false →
  raise_for_status status_code reason u = Ok tt.
Proof.
  intros H. unfold raise_for_status.
  destruct ((400 <=? status_code) && (status_code <? 500)) eqn:E4;
    [exfalso; lia|].
  destruct ((500 <=? status_code) && (status_code <? 600)) eqn:E5;
    [exfalso; lia|].
  done.
Qed.

Lemma well_formed_getitem df c s :
  well_formed df = true → getitem df c = Ok s → series_len s = len df.
Proof.
  intros Hwf%well_formed_lengths Hc%getitem_Ok.
  induction Hwf as [|[c' s'] cols Hs _ IH]; simpl in *; [done|].
  destruct (String.eqb c c'); [congruence|by apply IH].
Qed.

Lemma clean_records raw es :
  well_formed raw = true →
  len raw = 10%nat →
  getitem raw "email" = Ok (Object es) →
  clean (Records raw)
  = Ok {| index := index raw;
          columns :=
            set_column "condition" (Object (map Some simulated_conditions))
              (set_column "age" (Int64 simulated_ages)
                 (set_column "email" (str_lower es)
                    (set_column "name" (Object (map Some custom_names))
                       (columns raw)))) |}.
Proof.
  intros Hwf Hlen He. unfold clean. cbn [pd_DataFrame_of bind].
  assert (index raw ≠ []) as Hidx.
  { unfold len in Hlen. by destruct (index raw). }
  pose proof (well_formed_getitem _ _ _ Hwf He) as Hes. simpl in Hes.
  rewrite setitem_same_length by (done || by rewrite Hlen). cbn [bind].
  assert (getitem
            {| index := index raw;
               columns := set_column "name" (Object (map Some custom_names))
                            (columns raw) |} "email"
          = getitem raw "email") as ->.
  { unfold getitem. simpl. by rewrite lookup_set_column_ne. }
  rewrite He. cbn [bind str_accessor].
  rewrite setitem_same_length
    by (done || (simpl; unfold len; simpl; by rewrite length_map, Hes)).
  cbn [bind index columns].
  rewrite setitem_same_length by (done || (unfold len; simpl; by rewrite Hlen)).
  cbn [bind index columns].
  rewrite setitem_same_length by (done || (unfold len; simpl; by rewrite Hlen)).
  done.
Qed.

Section FetcherProperties.
Variable requests_get : string → outcome.

Lemma fetch_failure u :
  fetch_fails (requests_get u) = true →
  ∃ msg, fetch requests_get u = Raise (RequestException msg).
Proof.
  unfold fetch_fails, fetch.
  destruct (requests_get u) as [msg|u' status_code reason body]; [eauto|].
  destruct ((400 <=? status_code) && (status_code <? 600)) eqn:E.
  - intros _.
    destruct (raise_for_status_error status_code reason u' E) as [msg ->].
    eauto.
  - rewrite (raise_for_status_ok _ reason u' E). simpl.
    destruct body; [eauto|done].
Qed.

Lemma fetch_success u u' status_code reason raw :
  requests_get u = Response u' status_code reason (JSON (Records raw)) →
  fetch_fails (requests_get u) = false →
  fetch requests_get u = clean (Records raw).
Proof.
  intros Hget. unfold fetch_fails, fetch. rewrite Hget.
  intros [E _]%orb_false_elim. by rewrite (raise_for_status_ok _ reason u' E).
Qed.

Lemma fetch_and_clean_data_failure u :
  fetch_fails (requests_get u) = true →
  ∃ msg,
    fetch_and_clean_data requests_get u
    = ([Print [Lit "Error fetching data: "; OfExn (RequestException msg)]],
       Ok pd_DataFrame).
Proof.
  intros [msg Hraise]%fetch_failure. exists msg.
  unfold fetch_and_clean_data. by rewrite Hraise.
Qed.
End FetcherProperties.

(** C1 (as amended). When the request raises, or the response has a 4xx or
    5xx status, or its body is not JSON, fetch_and_clean_data prints
    "Error fetching data: ..." and returns the empty table: the exception
    stops here. *)
Theorem fetch_failure_absorbed (requests_get : string → outcome) u :
  fetch_fails (requests_get u) = true →
  ∃ msg,
    fetch_and_clean_data requests_get u
    = ([Print [Lit "Error fetching data: "; OfExn (RequestException msg)]],
       Ok pd_DataFrame)
    ∧ empty pd_DataFrame = true ∧ len pd_DataFrame = 0%nat.
Proof.
  intros Hfail.
  destruct (fetch_and_clean_data_failure requests_get u Hfail) as [msg ->].
  by exists msg.
Qed.

Lemma fetch_failure_absorbed_witness :
  ∃ msg,
    fetch_and_clean_data
      (λ u, Response u 404 "Not Found" (JSON (Records sample_raw))) url
    = ([Print [Lit "Error fetching data: "; OfExn (RequestException msg)]],
       Ok pd_DataFrame)
    ∧ empty pd_DataFrame = true ∧ len pd_DataFrame = 0%nat.
Proof.
  apply (fetch_failure_absorbed
           (λ u, Response u 404 "Not Found" (JSON (Records sample_raw))) url).
  reflexivity.
Defined.

(** Counterexample to C1 as stated: a response whose status is outside
    2xx but also outside 4xx and 5xx is no failure for the Fetcher, which
    returns the ten-row table and reports nothing. *)
Lemma fetch_non_2xx_counterexample :
  fetch_and_clean_data
    (λ u, Response u 300 "Multiple Choices" (JSON (Records sample_raw))) url
  = ([], Ok sample_table)
  ∧ empty sample_table = false ∧ len sample_table = 10%nat.
Proof. by vm_compute. Qed.

(** A body that decodes to another number of rows than ten is not absorbed:
    the ValueError of the first column assignment leaves the function. *)
Lemma fetch_row_count_mismatch :
  fetch_and_clean_data
    (λ u, Response u 200 "OK"
            (JSON (Records
               {| index := [0; 1]%nat;
                  columns := [("email", Object [Some "a@b.c"; Some "d@e.f"])] |})))
    url
  = ([], Raise (ValueError
                  "Length of values (10) does not match length of index (2)")).
Proof. by vm_compute. Qed.




(** C4. A successful fetch of ten records in whose emails there is no '@'
    returns the table with the fixed ages and conditions, and on this table
    analyze_data raises KeyError(1) at line 75: no mean age and no condition
    counts are returned. *)
Theorem analyze_data_synthetic_no_at (requests_get : string → outcome)
    u u' status_code reason raw es :
  requests_get u = Response u' status_code reason (JSON (Records raw)) →
  fetch_fails (requests_get u) = false →
  well_formed raw = true →
  len raw = 10%nat →
  getitem raw "email" = Ok (Object es) →
  existsb mentions_at es = false →
  ∃ df,
    fetch_and_clean_data requests_get u = ([], Ok df) ∧
    getitem df "age" = Ok (Int64 simulated_ages) ∧
    getitem df "condition" = Ok (Object (map Some simulated_conditions)) ∧
    analyze_data df = Raise (KeyError (IntV 1)).
Proof.
  intros Hget Hok Hwf Hlen He Hat.
  pose proof (fetch_success requests_get u _ _ _ _ Hget Hok) as Hfetch.
  rewrite (clean_records raw es Hwf Hlen He) in Hfetch.
  eexists. split; [|split; [|split]].
  - unfold fetch_and_clean_data. by rewrite Hfetch.
  - apply getitem_Ok. cbn [columns].
    rewrite lookup_set_column_ne by done. by rewrite lookup_set_column_eq.
  - apply getitem_Ok. cbn [columns]. by rewrite lookup_set_column_eq.
  - apply (analyze_data_no_domain _ (map (option_map lower) es)).
    + unfold empty, len in *. simpl. destruct (index raw); [done|].
      destruct (set_column _ _ _) eqn:E;
        [by apply set_column_nonempty in E|done].
    + apply getitem_Ok. cbn [columns].
      rewrite !lookup_set_column_ne by done. by rewrite lookup_set_column_eq.
    + rewrite <- Hat. clear. induction es as [|[s|] es IH]; simpl; [done| |done].
      by rewrite occurrences_lower, IH.
Qed.

Lemma analyze_data_synthetic_no_at_witness :
  ∃ df,
    fetch_and_clean_data no_at_net url = ([], Ok df) ∧
    getitem df "age" = Ok (Int64 simulated_ages) ∧
    getitem df "condition" = Ok (Object (map Some simulated_conditions)) ∧
    analyze_data df = Raise (KeyError (IntV 1)).
Proof.
  apply (analyze_data_synthetic_no_at no_at_net url url 200 "OK" no_at_raw
           (map Some
              [ "amani"; "neema"; "juma"; "zawadi"; "baraka";
                "fatuma"; "hassan"; "rehema"; "joseph"; "salma" ]));
    reflexivity.
Defined.

(** ** Distinct domains *)

Lemma omap_id_map {A B} (f : A → option B) (l : list A) :
  omap id (map f l) = omap f l.
Proof.
  induction l as [|x l IH]; csimpl; [done|].
  destruct (f x); csimpl; by rewrite IH.
Qed.

Lemma omap_map {A B C} (f : B → option C) (g : A → B) (l : list A) :
  omap f (map g l) = omap (λ x, f (g x)) l.
Proof.
  induction l as [|x l IH]; csimpl; [done|]. by rewrite IH.
Qed.

Lemma omap_bind_ext {A B} (f g : option A → option B) (l : list (option A)) :
  (∀ e, f e = g e) → omap f l = omap g l.
Proof.
  intros H. induction l as [|x l IH]; csimpl; [done|]. by rewrite H, IH.
Qed.

Lemma nunique_second_field es :
  nunique (map second_field es)
  = distinct_domains (λ s, second_field (Some s)) es.
Proof.
  unfold nunique, distinct_domains. rewrite omap_id_map.
  rewrite (omap_bind_ext second_field
             (λ e : option string, e ≫= λ s, second_field (Some s))); [done|].
  by intros [s|].
Qed.

Lemma distinct_domains_ext f g es :
  Forall (λ e : option string, e ≫= f = e ≫= g) es →
  distinct_domains f es = distinct_domains g es.
Proof.
  intros H. unfold distinct_domains.
  assert (omap (λ e : option string, e ≫= f) es
          = omap (λ e : option string, e ≫= g) es) as ->; [|done].
  induction H as [|e es He _ IH]; csimpl; [done|]. by rewrite He, IH.
Qed.

Lemma distinct_domains_lower es :
  distinct_domains (λ s, second_field (Some s)) (map (option_map lower) es)
  = distinct_domains (λ s, option_map lower (second_field (Some s))) es.
Proof.
  unfold distinct_domains. do 2 f_equal.
  etrans; [apply omap_map|]. apply omap_bind_ext.
  intros [s|]; [|done]. apply (second_field_lower (Some s)).
Qed.

Lemma distinct_domains_drop f es1 e es2 :
  e ≫= f = None →
  distinct_domains f (es1 ++ e :: es2) = distinct_domains f (es1 ++ es2).
Proof.
  intros H. unfold distinct_domains.
  rewrite !omap_app. csimpl. by rewrite H.
Qed.

Lemma distinct_domains_shared f d es :
  es ≠ [] → Forall (λ e : option string, e ≫= f = Some d) es →
  distinct_domains f es = 1%nat.
Proof.
  intros Hne H. unfold distinct_domains.
  assert (list_to_set (omap (λ e : option string, e ≫= f) es)
          = ({[ d ]} : gset string)) as ->; [|by rewrite size_singleton].
  induction H as [|e es He Hes IH]; [done|]. csimpl. rewrite He. simpl.
  destruct es as [|e' es].
  - csimpl. apply (right_id_L ∅ (∪)).
  - rewrite IH by done. apply (idemp_L (∪)).
Qed.

(** C5 (as amended). For every non-empty table the Summarizer can read,
    unique_domains is the number of distinct second '@'-separated fields of
    the emails. When no email has more than one '@' this is the number of
    distinct substrings after the '@'; a domain shared by all rows counts
    once; a row without '@' adds nothing; and when the emails were
    lower-cased at ingestion, domains that differ only in case count once. *)
Theorem unique_domains_second_field df es :
  empty df = false →
  valid_table df = true →
  getitem df "email" = Ok (Object es) →
  ∃ s, analyze_data df = Ok s ∧
    unique_domains s = distinct_domains (λ s, second_field (Some s)) es ∧
    (Forall (λ e, match e with
                  | Some s => (occurrences at_sign s ≤ 1)%nat
                  | None => True
                  end) es →
     unique_domains s = distinct_domains after_at es ∧
     unique_domains s = distinct_domains after_last_at es) ∧
    (∀ d, Forall (λ e, second_field e = Some d) es →
       unique_domains s = 1%nat) ∧
    (∀ es1 e es2, es = es1 ++ e :: es2 → mentions_at e = false →
       unique_domains s
       = distinct_domains (λ s, second_field (Some s)) (es1 ++ es2)) ∧
    (∀ raw, es = map (option_map lower) raw →
       unique_domains s
       = distinct_domains (λ s, option_map lower (second_field (Some s))) raw).
Proof.
  intros Hne Hvalid He.
  destruct (valid_table_columns df Hvalid)
    as (es' & cs & ages & He' & Hc & Ha & Hat).
  assert (es' = es) as -> by congruence.
  destruct (analyze_data_valid df es cs ages) as (m & _ & ->); try done.
  eexists. split; [done|]. cbn [unique_domains]. rewrite nunique_second_field.
  split; [done|]. split; [|split; [|split]].
  - intros Hone. split; apply distinct_domains_ext;
      (eapply Forall_impl; [exact Hone|]); intros [s|] Hs; simpl; try done;
      by destruct (second_field_after_at s Hs).
  - intros d Hd. apply (distinct_domains_shared _ d).
    + intros ->. done.
    + eapply Forall_impl; [exact Hd|]. by intros [s|].
  - intros es1 e es2 -> Hno. apply distinct_domains_drop.
    apply second_field_none in Hno. by destruct e.
  - intros raw ->. apply distinct_domains_lower.
Qed.

Lemma unique_domains_second_field_witness :
  ∃ s, analyze_data shared_domain_table = Ok s ∧
       unique_domains s = 1%nat ∧
       unique_domains s
       = distinct_domains after_at
           [Some "amani@example.com"; Some "neema@example.com"; Some "juma"].
Proof.
  destruct (unique_domains_second_field shared_domain_table
              [Some "amani@example.com"; Some "neema@example.com"; Some "juma"]
              eq_refl eq_refl eq_refl) as (s & Hs & Hn & Hone & _ & Hdrop & _).
  exists s. split; [exact Hs|]. split.
  - rewrite (Hdrop [Some "amani@example.com"; Some "neema@example.com"]
               (Some "juma") [] eq_refl eq_refl).
    reflexivity.
  - apply Hone. repeat constructor.
Defined.

(** Counterexample to C5 as stated: two emails with two '@' each, whose
    substrings after the '@' differ (after the first as after the last),
    count as one domain, because only the second field is compared. *)
Lemma unique_domains_counterexample :
  ∃ s, analyze_data two_at_table = Ok s ∧
       unique_domains s = 1%nat ∧
       distinct_domains after_at
         [Some "amani@clinic@nairobi.example";
          Some "neema@clinic@mombasa.example"] = 2%nat ∧
       distinct_domains after_last_at
         [Some "amani@clinic@nairobi.example";
          Some "neema@clinic@mombasa.example"] = 2%nat.
Proof. eexists. split; [reflexivity|]. by vm_compute. Qed.

(** ** Condition counts *)

Lemma sum_counts_insert v n (d : gmap scalar nat) :
  d !! v = None → sum_counts (<[v := n]> d) = (n + sum_counts d)%nat.
Proof.
  intros H. unfold sum_counts. rewrite map_fold_insert_L; [done| |done].
  intros. lia.
Qed.

Lemma sum_counts_count_one v (d : gmap scalar nat) :
  sum_counts (count_one v d) = S (sum_counts d).
Proof.
  unfold count_one. destruct (d !! v) as [n|] eqn:E; simpl.
  - rewrite <- (insert_delete_eq d).
    rewrite sum_counts_insert by apply lookup_delete_eq.
    rewrite <- (insert_delete_id d v n E) at 2.
    rewrite sum_counts_insert by apply lookup_delete_eq. done.
  - by rewrite sum_counts_insert.
Qed.

Lemma sum_counts_value_counts s :
  sum_counts (value_counts s) = length (present s).
Proof.
  unfold value_counts. induction (present s) as [|v l IH]; simpl.
  - apply map_fold_empty.
  - by rewrite sum_counts_count_one, IH.
Qed.

Lemma length_present s :
  all_present s = true → length (present s) = series_len s.
Proof.
  destruct s as [vs|vs]; simpl; [by rewrite length_map|].
  induction vs as [|[v|] vs IH]; csimpl; [done| |done].
  intros H. by rewrite IH.
Qed.

Lemma value_counts_lookup s v :
  default 0%nat (value_counts s !! v) = count_occ scalar_eq_dec (present s) v.
Proof.
  unfold value_counts. induction (present s) as [|x l IH]; simpl; [done|].
  unfold count_one at 1. destruct (scalar_eq_dec x v) as [->|Hne].
  - by rewrite lookup_insert_eq, <- IH.
  - by rewrite lookup_insert_ne.
Qed.

Lemma value_counts_positive s v n :
  value_counts s !! v = Some n → (0 < n)%nat.
Proof.
  unfold value_counts. induction (present s) as [|x l IH]; simpl; [done|].
  unfold count_one at 1. destruct (decide (x = v)) as [->|Hne].
  - rewrite lookup_insert_eq. intros [= <-]. lia.
  - by rewrite lookup_insert_ne.
Qed.

(** C10. On a well-formed table with rows, each of which carries a
    condition value, and with no '@' in any email, analyze_data raises
    KeyError(1) at line 75 and returns no Summary: there are no
    condition_counts whose counts could add up to total_patients. *)
Theorem condition_counts_no_summary df es c :
  well_formed df = true →
  empty df = false →
  getitem df "email" = Ok (Object es) →
  existsb mentions_at es = false →
  getitem df "condition" = Ok c →
  all_present c = true →
  analyze_data df = Raise (KeyError (IntV 1)).
Proof. intros _ Hne He Hat _ _. by apply (analyze_data_no_domain df es). Qed.

Lemma condition_counts_no_summary_witness :
  len (patient_data no_at_session) = 10%nat ∧
  analyze_data (patient_data no_at_session) = Raise (KeyError (IntV 1)).
Proof.
  split; [reflexivity|].
  apply (condition_counts_no_summary (patient_data no_at_session)
           (map Some
              [ "amani"; "neema"; "juma"; "zawadi"; "baraka";
                "fatuma"; "hassan"; "rehema"; "joseph"; "salma" ])
           (Object (map Some simulated_conditions)));
    reflexivity.
Defined.

(** ** The session *)

Section SessionProperties.
Variable requests_get : string → outcome.
Variable int_ : string → option Z.
Variable open_error : string → option string.

Abbreviation pass := (menu_pass requests_get int_ open_error).

Lemma pass_fetch st stdin :
  match fetch_and_clean_data requests_get url with
  | (_, Ok df) =>
      ∃ out, pass st ("1" :: stdin)
             = (out, Ok (Continue,
                         {| patient_data := df; filtered_data := pd_DataFrame |},
                         stdin))
  | (_, Raise e) => ∃ out, pass st ("1" :: stdin) = (out, Raise e)
  end.
Proof.
  unfold menu_pass, menu, input, print, fetch_patient_data, io_bind, pure.
  simpl. destruct (fetch_and_clean_data requests_get url) as [out [df|e]].
  - destruct (empty df); simpl; eauto.
  - eauto.
Qed.

Lemma view_analysis_cases st :
  empty (patient_data st) = false →
  view_analysis open_error st
  = match analyze_data (report_target st) with
    | Raise e => ([], Raise e)
    | Ok a =>
        if bool_decide (condition_counts a = ∅) then
          ([Print [Lit "No data to visualize."]]
             ++ fst (save_analysis open_error a (report_file st))
             ++ summary_prints a, Ok st)
        else ([], Raise plt_unbound)
    end.
Proof.
  intros Hne. unfold view_analysis, report_target, report_file.
  rewrite Hne. destruct (empty (filtered_data st)); simpl;
    (destruct (analyze_data _) as [a|e]; [|done]);
    unfold io_bind, pure, visualize_data, print; simpl;
    (destruct (bool_decide _); [|done]);
    unfold save_analysis; by destruct (open_error _).
Qed.

Lemma pass_guard st stdin choice :
  empty (patient_data st) = true →
  choice = "2" ∨ choice = "3" →
  ∃ out, pass st (choice :: stdin)
         = (out ++ [Print [Lit "Fetch data first."]], Ok (Continue, st, stdin)).
Proof.
  intros He [-> | ->];
    unfold menu_pass, menu, input, print, filter_patients_by_age, view_analysis,
      io_bind, pure; simpl; rewrite He; simpl;
    eexists [_; _; _; _; _; _; _]; reflexivity.
Qed.

Lemma get_age_range_consumes n stdin out min_age max_age rest :
  (length stdin ≤ n)%nat →
  get_age_range int_ stdin = (out, Ok (min_age, max_age, rest)) →
  (length rest < length stdin)%nat ∧ 0 ≤ min_age ≤ max_age.
Proof.
  revert stdin out. induction n as [|n IH]; intros [|l1 rest1] out Hn; simpl;
    try done; try (simpl in Hn; lia).
  simpl in Hn. unfold input, print, pure.
  destruct (int_ l1) as [lo|].
  - destruct rest1 as [|l2 rest2]; [done|].
    destruct (int_ l2) as [hi|].
    + destruct ((lo <? 0) || (hi <? lo)) eqn:E.
      * destruct (get_age_range int_ rest2) as [o r] eqn:Eg.
        intros [= _ ->]. apply IH in Eg; [|simpl in Hn; lia].
        simpl. lia.
      * intros [= _ -> -> ->]. simpl. lia.
    + destruct (get_age_range int_ rest2) as [o r] eqn:Eg.
      intros [= _ ->]. apply IH in Eg; [|simpl in Hn; lia].
      simpl. lia.
  - destruct (get_age_range int_ rest1) as [o r] eqn:Eg.
    intros [= _ ->]. apply IH in Eg; [|lia]. simpl. lia.
Qed.

Lemma pass_consumes st stdin out c st' rest :
  pass st stdin = (out, Ok (c, st', rest)) →
  (length rest < length stdin)%nat.
Proof.
  unfold menu_pass, menu, input, print.
  destruct stdin as [|choice rest0]; [done|].
  destruct (String.eqb choice "1").
  { unfold io_bind, pure.
    destruct (fetch_patient_data _ _) as [o [x|e]]; [|done].
    intros [= _ _ _ ->]. simpl. lia. }
  destruct (String.eqb choice "2").
  { unfold io_bind at 1, pure.
    destruct (filter_patients_by_age _ _ _) as [o [[x r]|e]] eqn:E; [|done].
    intros [= _ _ _ <-]. simpl.
    revert E. unfold filter_patients_by_age, print, pure.
    destruct (empty (patient_data st)).
    - intros [= _ _ ->]. lia.
    - unfold io_bind at 1.
      destruct (get_age_range int_ rest0) as [o1 [[[lo hi] r1]|e1]] eqn:Eg;
        [|done].
      apply (get_age_range_consumes _ _ _ _ _ _ (Nat.le_refl _)) in Eg.
      unfold io_bind. destruct (filter_by_age _ _ _) as [o2 [f|e2]]; [|done].
      destruct (getitem_list f _); [|done].
      intros [= _ _ ->]. lia. }
  destruct (String.eqb choice "3").
  { unfold io_bind, pure. destruct (view_analysis _ _) as [o [x|e]]; [|done].
    intros [= _ _ _ ->]. simpl. lia. }
  destruct (String.eqb choice "4"); unfold pure; intros [= _ _ _ ->];
    simpl; lia.
Qed.

Lemma main_loop_returns n st stdin :
  (length stdin < n)%nat →
  is_Some (main_loop requests_get int_ open_error n st stdin).
Proof.
  revert st stdin. induction n as [|n IH]; intros st stdin Hn; [lia|].
  simpl. destruct (pass st stdin) as [out [[[[] st'] rest]|e]] eqn:E; [|done..].
  apply pass_consumes in E.
  destruct (IH st' rest) as [[o r] ->]; [lia|done].
Qed.

(** The menu loop ends for every finite input: it reaches the exit or an
    exception (EOFError at the latest) within one pass per line. *)
Lemma main_returns stdin :
  is_Some (main requests_get int_ open_error stdin).
Proof.
  unfold main.
  destruct (main_loop_returns (S (length stdin))
              {| patient_data := pd_DataFrame; filtered_data := pd_DataFrame |}
              stdin) as [[o r] ->]; [lia|done].
Qed.

(** C9. In a pass of the menu loop: the load command sets "current" to
    the fetched table and "filtered" to the empty table. With a non-empty
    "current" the report command runs analyze_data and visualize_data on
    "filtered" when it is not empty and on "current" otherwise, and on no
    other table: an exception of analyze_data leaves the pass; so does the
    NameError of visualize_data when the Summary has condition counts;
    and when it has none the command prints, saves and leaves both slots
    as they are. With an empty "current" the filter and report commands
    print "Fetch data first." and leave both slots as they are. *)
Theorem session_slots st stdin :
  (∀ out df,
     fetch_and_clean_data requests_get url = (out, Ok df) →
     ∃ out',
       pass st ("1" :: stdin)
       = (out', Ok (Continue,
                    {| patient_data := df; filtered_data := pd_DataFrame |},
                    stdin))) ∧
  (empty (patient_data st) = false →
   ∃ out',
     pass st ("3" :: stdin)
     = match analyze_data (report_target st) with
       | Raise e => (out', Raise e)
       | Ok a =>
           if bool_decide (condition_counts a = ∅) then
             (out' ++ [Print [Lit "No data to visualize."]]
                   ++ fst (save_analysis open_error a (report_file st))
                   ++ summary_prints a,
              Ok (Continue, st, stdin))
           else (out', Raise plt_unbound)
       end) ∧
  (∀ choice,
     empty (patient_data st) = true →
     choice = "2" ∨ choice = "3" →
     ∃ out',
       pass st (choice :: stdin)
       = (out' ++ [Print [Lit "Fetch data first."]],
          Ok (Continue, st, stdin))).
Proof.
  split; [|split].
  - intros out df Hfetch. pose proof (pass_fetch st stdin) as H.
    by rewrite Hfetch in H.
  - intros Hne. pose proof (view_analysis_cases st Hne) as H.
    unfold menu_pass, menu, input, print. simpl.
    unfold io_bind at 1. rewrite H.
    eexists [_; _; _; _; _; _; _].
    destruct (analyze_data _) as [a|e]; [|done].
    destruct (bool_decide _); [|done].
    simpl. by rewrite app_nil_r.
  - intros choice. apply pass_guard.
Qed.
End SessionProperties.
Lemma session_slots_witness :
  (∃ out',
     menu_pass sample_net (λ _, None) (λ _, None) empty_session ["1"; "4"]
     = (out', Ok (Continue, sample_session, ["4"]))) ∧
  (∃ out',
     menu_pass unreachable_net (λ _, None) (λ _, None)
       sample_session ["3"; "4"]
     = (out', Raise plt_unbound)) ∧
  (∃ out' a,
     analyze_data no_condition_table = Ok a ∧
     menu_pass unreachable_net (λ _, None) (λ _, None)
       no_condition_session ["3"; "4"]
     = (out' ++ [Print [Lit "No data to visualize."]]
             ++ fst (save_analysis (λ _, None) a "analysis_summary.txt")
             ++ summary_prints a,
        Ok (Continue, no_condition_session, ["4"]))) ∧
  (∃ out',
     menu_pass unreachable_net (λ _, None) (λ _, None)
       empty_session ["2"; "4"]
     = (out' ++ [Print [Lit "Fetch data first."]],
        Ok (Continue, empty_session, ["4"]))).
Proof.
  split; [|split; [|split]].
  - apply (proj1 (session_slots sample_net (λ _, None) (λ _, None)
                    empty_session ["4"]) []).
    reflexivity.
  - destruct (proj1 (proj2 (session_slots unreachable_net (λ _, None)
                              (λ _, None) sample_session ["4"])) eq_refl)
      as [out' H].
    exists out'. exact H.
  - destruct (proj1 (proj2 (session_slots unreachable_net (λ _, None)
                              (λ _, None) no_condition_session ["4"]))
                eq_refl)
      as [out' H].
    eexists out', _. split; [reflexivity|]. exact H.
  - apply (proj2 (proj2 (session_slots unreachable_net (λ _, None)
                           (λ _, None) empty_session ["4"])) "2");
      [reflexivity | by left].
Defined.

(** * Further properties of the pipeline *)

(** ** Filtering: composition, identity, shape *)

Lemma select_select {A B} (p q : A → bool) (l : list A) (k : list B) :
  select (map q (select (map p l) l)) (select (map p l) k)
  = select (map (λ x, p x && q x) l) k.
Proof.
  revert k. induction l as [|x l IH]; intros [|y k]; simpl; try done.
  - destruct (p x); simpl; [|by rewrite !select_nil_r].
    destruct (q x); simpl; by rewrite ?select_nil_r.
  - destruct (p x); simpl; [|done]. destruct (q x); by rewrite IH.
Qed.

Lemma between_max_min a b c d x :
  between a b x && between c d x = between (Z.max a c) (Z.min b d) x.
Proof.
  unfold between.
  destruct (Z.leb_spec a x), (Z.leb_spec x b), (Z.leb_spec c x),
    (Z.leb_spec x d), (Z.leb_spec (Z.max a c) x), (Z.leb_spec x (Z.min b d));
    simpl; try done; lia.
Qed.

Lemma getitem_getitem_mask df c s m :
  getitem df c = Ok s →
  getitem (getitem_mask df m) c = Ok (series_select m s).
Proof.
  intros H%getitem_Ok. apply getitem_Ok. simpl.
  by rewrite lookup_column_select, H.
Qed.

Lemma getitem_mask_compose df p q (ages : list Z) :
  getitem_mask (getitem_mask df (map p ages))
    (map q (select (map p ages) ages))
  = getitem_mask df (map (λ x, p x && q x) ages).
Proof.
  unfold getitem_mask. simpl. f_equal.
  - apply select_select.
  - rewrite map_map. apply map_ext. intros [c s]. simpl. f_equal.
    destruct s; simpl; f_equal; apply select_select.
Qed.

(** X1. Two filters in a row are one filter with the intersection of the
    ranges. *)
Theorem filter_by_age_compose df ages a b c d :
  getitem df "age" = Ok (Int64 ages) →
  ∃ df1 df2,
    filter_by_age df a b = ([], Ok df1) ∧
    filter_by_age df1 c d = ([], Ok df2) ∧
    filter_by_age df (Z.max a c) (Z.min b d) = ([], Ok df2).
Proof.
  intros Hage. eexists _, _. split; [by apply filter_by_age_int|].
  pose proof (getitem_getitem_mask df "age" _ (map (between a b) ages) Hage)
    as Hage1. simpl in Hage1.
  split; [by apply filter_by_age_int|].
  rewrite (filter_by_age_int _ _ _ _ Hage). do 2 f_equal.
  rewrite getitem_mask_compose. f_equal. apply map_ext. intros x.
  symmetry. apply between_max_min.
Qed.

Lemma filter_by_age_compose_witness :
  ∃ df1 df2,
    filter_by_age sample_table 30 60 = ([], Ok df1) ∧
    filter_by_age df1 20 45 = ([], Ok df2) ∧
    filter_by_age sample_table (Z.max 30 20) (Z.min 60 45) = ([], Ok df2).
Proof.
  apply (filter_by_age_compose sample_table simulated_ages 30 60 20 45).
  reflexivity.
Defined.

Lemma length_select {A B} (m : list bool) (l : list A) (k : list B) :
  length l = length k → length (select m l) = length (select m k).
Proof.
  revert l k. induction m as [|b m IH]; intros [|x l] [|y k]; simpl; try done.
  intros [= H]. destruct b; simpl; by rewrite (IH l k H).
Qed.

Lemma select_sublist {A} (m : list bool) (l : list A) : sublist (select m l) l.
Proof.
  revert l. induction m as [|b m IH]; intros [|x l]; simpl;
    try apply sublist_nil_l.
  destruct b; [by apply sublist_skip|by apply sublist_cons].
Qed.

Lemma between_spec a b x : between a b x = true ↔ a ≤ x ≤ b.
Proof. unfold between. rewrite andb_true_iff, !Z.leb_le. done. Qed.

Lemma forallb_between a b ages :
  Forall (λ x, a ≤ x ≤ b) ages →
  forallb id (map (between a b) ages) = true.
Proof.
  induction 1 as [|x l Hx _ IH]; simpl; [done|].
  apply between_spec in Hx. by rewrite Hx.
Qed.

Lemma well_formed_split df :
  well_formed df = true ↔
  distinct (map fst (columns df)) = true ∧
  Forall (λ cs, series_len (snd cs) = len df) (columns df).
Proof.
  unfold well_formed. rewrite andb_true_iff, forallb_forall, Forall_forall.
  split; intros [Hd Hl]; (split; [done|]); intros cs Hcs.
  - apply Nat.eqb_eq, Hl. by apply list_elem_of_In.
  - apply Nat.eqb_eq, Hl. by apply list_elem_of_In.
Qed.

Lemma series_len_select m s :
  series_len (series_select m s) = length (select m (cells s)).
Proof. by rewrite <- cells_select, length_cells. Qed.

(** X2. A range that contains every age of the table filters nothing out:
    filter_by_age returns the table itself. *)
Theorem filter_by_age_all df ages min_age max_age :
  well_formed df = true →
  getitem df "age" = Ok (Int64 ages) →
  Forall (λ a, min_age ≤ a ≤ max_age) ages →
  filter_by_age df min_age max_age = ([], Ok df).
Proof.
  intros Hwf Hage Hall. rewrite (filter_by_age_int _ _ _ _ Hage).
  do 2 f_equal.
  pose proof (forallb_between _ _ _ Hall) as Hm.
  pose proof (well_formed_getitem _ _ _ Hwf Hage) as Hlen. simpl in Hlen.
  apply well_formed_split in Hwf as [_ Hlens].
  destruct df as [idx cols]. unfold getitem_mask, len in *. simpl in *.
  f_equal.
  - apply select_all_true; [done|]. rewrite length_map. lia.
  - clear Hage. induction Hlens as [|[c s] cols Hs _ IH]; simpl; [done|].
    rewrite IH. do 2 f_equal. apply series_select_all_true; [done|].
    rewrite length_map. simpl in Hs. lia.
Qed.

Lemma filter_by_age_all_witness :
  filter_by_age sample_table 25 60 = ([], Ok sample_table).
Proof.
  apply (filter_by_age_all sample_table simulated_ages 25 60);
    [reflexivity | reflexivity |].
  unfold simulated_ages. repeat constructor; lia.
Defined.

Lemma Forall_select_between a b ages :
  Forall (λ x, a ≤ x ≤ b) (select (map (between a b) ages) ages).
Proof.
  induction ages as [|x l IH]; simpl; [constructor|].
  destruct (between a b x) eqn:E; [|done].
  constructor; [by apply between_spec|done].
Qed.

Lemma well_formed_getitem_mask df m :
  well_formed df = true → well_formed (getitem_mask df m) = true.
Proof.
  intros Hwf. apply well_formed_split.
  apply well_formed_split in Hwf as [Hd Hlens]. simpl. split.
  - rewrite map_map. simpl. done.
  - apply Forall_forall. intros [c s] Hin. simpl.
    apply list_elem_of_In, in_map_iff in Hin as ([c' s'] & [= <- <-] & Hin).
    rewrite Forall_forall in Hlens.
    apply list_elem_of_In, Hlens in Hin. simpl in Hin.
    unfold len. simpl. rewrite series_len_select.
    apply length_select. by rewrite length_cells.
Qed.

(** X3. The table that filter_by_age returns is well formed, has the
    columns and dtypes of its input, keeps a sub-sequence of the input's
    index labels, and all its ages lie in the range. *)
Theorem filter_by_age_shape df ages min_age max_age :
  well_formed df = true →
  getitem df "age" = Ok (Int64 ages) →
  ∃ df' ages',
    filter_by_age df min_age max_age = ([], Ok df') ∧
    well_formed df' = true ∧
    dtypes df' = dtypes df ∧
    sublist (index df') (index df) ∧
    getitem df' "age" = Ok (Int64 ages') ∧
    Forall (λ a, min_age ≤ a ≤ max_age) ages' ∧
    len df' = length ages' ∧
    (len df' ≤ len df)%nat.
Proof.
  intros Hwf Hage. set (m := map (between min_age max_age) ages).
  exists (getitem_mask df m), (select m ages).
  split; [by apply filter_by_age_int|].
  pose proof (well_formed_getitem _ _ _ Hwf Hage) as Hlen. simpl in Hlen.
  assert (sublist (index (getitem_mask df m)) (index df)) as Hsub
    by apply select_sublist.
  split; [|split; [|split; [done|split; [|split; [|split]]]]].
  - by apply well_formed_getitem_mask.
  - unfold dtypes. simpl. rewrite map_map. apply map_ext.
    intros [c [vs|vs]]; done.
  - by apply (getitem_getitem_mask df "age" (Int64 ages)).
  - apply Forall_select_between.
  - unfold len in *. simpl. apply length_select. by rewrite Hlen.
  - by apply sublist_length.
Qed.

Lemma filter_by_age_shape_witness :
  ∃ df' ages',
    filter_by_age sample_table 30 45 = ([], Ok df') ∧
    well_formed df' = true ∧
    dtypes df' = dtypes sample_table ∧
    sublist (index df') (index sample_table) ∧
    getitem df' "age" = Ok (Int64 ages') ∧
    Forall (λ a, 30 ≤ a ≤ 45) ages' ∧
    len df' = length ages' ∧
    (len df' ≤ len sample_table)%nat.
Proof.
  apply (filter_by_age_shape sample_table simulated_ages 30 45); reflexivity.
Defined.

(** X4. Only the KeyError of a missing column is absorbed: on a table whose
    age column holds text, the TypeError of the comparison leaves
    filter_by_age and nothing is printed. *)
Theorem filter_by_age_text_ages df vs min_age max_age :
  getitem df "age" = Ok (Object vs) →
  has_str vs = true →
  ∃ msg, filter_by_age df min_age max_age = ([], Raise (TypeError msg)).
Proof.
  intros Hage Hstr. unfold filter_by_age, age_mask. rewrite Hage.
  cbn [bind]. unfold series_ge, series_compare. rewrite Hstr. cbn [bind].
  eauto.
Qed.

Lemma filter_by_age_text_ages_witness :
  ∃ msg, filter_by_age sample_raw_text 30 45 = ([], Raise (TypeError msg)).
Proof.
  apply (filter_by_age_text_ages sample_raw_text [Some "25"; Some "thirty"]);
    reflexivity.
Defined.

(** ** The age prompt and the menu loop *)

Section PromptProperties.
Variable requests_get : string → outcome.
Variable int_ : string → option Z.
Variable open_error : string → option string.

Lemma get_age_range_lines n stdin out min_age max_age rest :
  (length stdin ≤ n)%nat →
  get_age_range int_ stdin = (out, Ok (min_age, max_age, rest)) →
  ∃ skipped line1 line2,
    stdin = skipped ++ line1 :: line2 :: rest ∧
    int_ line1 = Some min_age ∧ int_ line2 = Some max_age ∧
    0 ≤ min_age ≤ max_age.
Proof.
  revert stdin out. induction n as [|n IH]; intros [|l1 rest1] out Hn; simpl;
    try done; try (simpl in Hn; lia).
  simpl in Hn. unfold input, print, pure.
  destruct (int_ l1) as [lo|] eqn:E1.
  - destruct rest1 as [|l2 rest2]; [done|].
    destruct (int_ l2) as [hi|] eqn:E2.
    + destruct ((lo <? 0) || (hi <? lo)) eqn:E.
      * destruct (get_age_range int_ rest2) as [o r] eqn:Eg.
        intros [= _ ->]. apply IH in Eg; [|simpl in Hn; lia].
        destruct Eg as (sk & a & b & -> & Ha & Hb & Hr).
        by exists (l1 :: l2 :: sk), a, b.
      * intros [= _ -> -> ->]. exists [], l1, l2.
        repeat split; try done; lia.
    + destruct (get_age_range int_ rest2) as [o r] eqn:Eg.
      intros [= _ ->]. apply IH in Eg; [|simpl in Hn; lia].
      destruct Eg as (sk & a & b & -> & Ha & Hb & Hr).
      by exists (l1 :: l2 :: sk), a, b.
  - destruct (get_age_range int_ rest1) as [o r] eqn:Eg.
    intros [= _ ->]. apply IH in Eg; [|lia].
    destruct Eg as (sk & a & b & -> & Ha & Hb & Hr).
    by exists (l1 :: sk), a, b.
Qed.

(** X5. A range that get_age_range returns was read from two consecutive
    lines of input, both accepted by int, and satisfies
    0 <= min_age <= max_age; the lines after them are left unread. *)
Theorem get_age_range_valid stdin out min_age max_age rest :
  get_age_range int_ stdin = (out, Ok (min_age, max_age, rest)) →
  ∃ skipped line1 line2,
    stdin = skipped ++ line1 :: line2 :: rest ∧
    int_ line1 = Some min_age ∧ int_ line2 = Some max_age ∧
    0 ≤ min_age ≤ max_age.
Proof. apply (get_age_range_lines (length stdin)). done. Qed.

Lemma get_age_range_raises n stdin out e :
  (length stdin ≤ n)%nat →
  get_age_range int_ stdin = (out, Raise e) →
  e = EOFError.
Proof.
  revert stdin out. induction n as [|n IH]; intros [|l1 rest1] out Hn; simpl;
    try (by intros [= _ <-]); try (simpl in Hn; lia).
  simpl in Hn. unfold input, print, pure.
  destruct (int_ l1) as [lo|].
  - destruct rest1 as [|l2 rest2]; [by intros [= _ <-]|].
    destruct (int_ l2) as [hi|].
    + destruct ((lo <? 0) || (hi <? lo)); [|done].
      destruct (get_age_range int_ rest2) as [o r] eqn:Eg.
      intros [= _ ->]. apply IH in Eg; [done|simpl in Hn; lia].
    + destruct (get_age_range int_ rest2) as [o r] eqn:Eg.
      intros [= _ ->]. apply IH in Eg; [done|simpl in Hn; lia].
  - destruct (get_age_range int_ rest1) as [o r] eqn:Eg.
    intros [= _ ->]. apply IH in Eg; [done|lia].
Qed.

(** X6. The only exception that leaves get_age_range is the EOFError of
    an exhausted input: a line that int rejects and an inverted or negative
    range are answered with a message and a new prompt. *)
Theorem get_age_range_only_eof stdin out e :
  get_age_range int_ stdin = (out, Raise e) → e = EOFError.
Proof. apply (get_age_range_raises (length stdin)). done. Qed.

Abbreviation pass' := (menu_pass requests_get int_ open_error).

Lemma pass_suffix st stdin out c st' rest :
  pass' st stdin = (out, Ok (c, st', rest)) →
  ∃ choice skipped,
    stdin = choice :: skipped ++ rest ∧ (c = Break → choice = "4").
Proof.
  unfold menu_pass, menu, input, print.
  destruct stdin as [|choice rest0]; [done|].
  destruct (String.eqb choice "1").
  { unfold io_bind, pure.
    destruct (fetch_patient_data _ _) as [o [x|e]]; [|done].
    intros [= _ <- _ ->]. by exists choice, []. }
  destruct (String.eqb choice "2").
  { unfold io_bind at 1, pure.
    destruct (filter_patients_by_age _ _ _) as [o [[x r]|e]] eqn:E; [|done].
    intros [= _ <- _ <-]. simpl.
    revert E. unfold filter_patients_by_age, print, pure.
    destruct (empty (patient_data st)).
    - intros [= _ _ ->]. by exists choice, [].
    - unfold io_bind at 1.
      destruct (get_age_range int_ rest0) as [o1 [[[lo hi] r1]|e1]] eqn:Eg;
        [|done].
      apply (get_age_range_lines _ _ _ _ _ _ (Nat.le_refl _)) in Eg
        as (sk & l1 & l2 & -> & _).
      unfold io_bind. destruct (filter_by_age _ _ _) as [o2 [f|e2]]; [|done].
      destruct (getitem_list f _); [|done].
      intros [= _ _ ->]. exists choice, (sk ++ [l1; l2]).
      split; [|done]. by rewrite <- app_assoc. }
  destruct (String.eqb choice "3").
  { unfold io_bind, pure. destruct (view_analysis _ _) as [o [x|e]]; [|done].
    intros [= _ <- _ ->]. by exists choice, []. }
  destruct (String.eqb_spec choice "4"); unfold pure; intros [= _ <- _ ->];
    by exists choice, [].
Qed.

Lemma main_loop_exit n st stdin out :
  main_loop requests_get int_ open_error n st stdin = Some (out, Ok tt) →
  "4" ∈ stdin.
Proof.
  revert st stdin out. induction n as [|n IH]; intros st stdin out; [done|].
  simpl. destruct (pass' st stdin) as [o [[[[] st'] rest]|e]] eqn:E; [| |done].
  - apply pass_suffix in E as (choice & sk & -> & _).
    destruct (main_loop _ _ _ n st' rest) as [[o' r]|] eqn:En; [|done].
    intros [= _ ->]. apply IH in En. set_solver.
  - apply pass_suffix in E as (choice & sk & -> & Hc).
    intros _. rewrite (Hc eq_refl). set_solver.
Qed.

(** X7. For every finite input the menu loop ends, within one pass per
    line: with the exit, or with an exception. It ends without an exception
    only when some line of the input is the choice "4". *)
Theorem main_ends stdin :
  ∃ out r,
    main requests_get int_ open_error stdin = Some (out, r) ∧
    (r = Ok tt → "4" ∈ stdin).
Proof.
  unfold main.
  destruct (main_loop_returns requests_get int_ open_error
              (S (length stdin)) empty_session stdin) as [[o r] Hr]; [lia|].
  unfold empty_session in Hr. rewrite Hr. eexists _, _. split; [done|].
  intros ->. by apply main_loop_exit in Hr.
Qed.
End PromptProperties.

Lemma get_age_range_valid_witness :
  ∃ skipped line1 line2,
    ["thirty"; "45"; "30"; "30"; "45"; "3"]
      = skipped ++ line1 :: line2 :: ["3"] ∧
    sample_int line1 = Some 30 ∧ sample_int line2 = Some 45 ∧
    0 ≤ 30 ≤ 45.
Proof.
  eapply (get_age_range_valid sample_int
            ["thirty"; "45"; "30"; "30"; "45"; "3"] _ 30 45 ["3"]).
  reflexivity.
Defined.

Lemma get_age_range_only_eof_witness :
  ∃ out e,
    get_age_range sample_int ["45"; "30"; "x"] = (out, Raise e) ∧
    e = EOFError.
Proof.
  eexists _, _. split; [reflexivity|].
  eapply (get_age_range_only_eof sample_int ["45"; "30"; "x"]). reflexivity.
Defined.

Lemma main_ends_witness :
  ∃ out r,
    main sample_net sample_int (λ _, None) ["1"; "2"; "30"; "45"; "3"; "4"]
      = Some (out, r) ∧
    (r = Ok tt → "4" ∈ ["1"; "2"; "30"; "45"; "3"; "4"]).
Proof.
  apply (main_ends sample_net sample_int (λ _, None)
           ["1"; "2"; "30"; "45"; "3"; "4"]).
Defined.

(** ** The Fetcher: what it returns and what it lets through *)

Lemma bind_Ok {A B} (r : result A) (k : A → result B) b :
  bind r k = Ok b → ∃ a, r = Ok a ∧ k a = Ok b.
Proof. destruct r as [a|e]; simpl; [eauto|done]. Qed.

Lemma setitem_Ok df c s df' :
  setitem df c s = Ok df' →
  series_len s ≠ 0%nat →
  len df' = series_len s ∧
  lookup_column c (columns df') = Some s ∧
  (index df ≠ [] → index df' = index df ∧
                   columns df' = set_column c s (columns df)).
Proof.
  unfold setitem, len. destruct (index df) as [|i idx] eqn:Ei.
  - destruct (series_len s) as [|n] eqn:En; [done|].
    intros [= <-] _. simpl. rewrite length_seq, lookup_set_column_eq. done.
  - destruct (Nat.eqb_spec (series_len s) (length (i :: idx))) as [Hl|];
      [|by destruct (series_len s)].
    intros H _.
    assert (df' = {| index := index df;
                     columns := set_column c s (columns df) |}) as ->.
    { rewrite Ei. destruct (series_len s); by injection H as <-. }
    simpl. rewrite lookup_set_column_eq, Ei. done.
Qed.

Lemma setitem_mismatch df c s :
  index df ≠ [] → series_len s ≠ len df →
  ∃ msg, setitem df c s = Raise (ValueError msg).
Proof.
  intros Hidx Hlen. unfold setitem.
  destruct (index df) as [|i idx] eqn:Ei; [done|].
  destruct (Nat.eqb_spec (series_len s) (len df)) as [|_]; [done|].
  destruct (series_len s); eauto.
Qed.

Lemma clean_Ok data df :
  clean data = Ok df →
  len df = 10%nat ∧
  getitem df "name" = Ok (Object (map Some custom_names)) ∧
  (∃ es, getitem df "email" = Ok (Object es)) ∧
  getitem df "age" = Ok (Int64 simulated_ages) ∧
  getitem df "condition" = Ok (Object (map Some simulated_conditions)).
Proof.
  unfold clean.
  intros (raw & _ & H)%bind_Ok.
  apply bind_Ok in H as (df1 & H1 & H).
  apply bind_Ok in H as (e & He & H).
  apply bind_Ok in H as (st & Hst & H).
  apply bind_Ok in H as (df2 & H2 & H).
  apply bind_Ok in H as (df3 & H3 & H).
  apply bind_Ok in H as (df4 & H4 & [= <-]).
  apply setitem_Ok in H1 as (Hl1 & Hn1 & _); [|done].
  assert (∀ d : DataFrame, len d = 10%nat → index d ≠ []) as Hne.
  { intros d Hd Hi. unfold len in Hd. by rewrite Hi in Hd. }
  assert (series_len (str_lower st) ≠ 0%nat) as Hst0.
  { intros H0. unfold setitem in H2. rewrite H0 in H2.
    pose proof (Hne df1 Hl1) as Hi. destruct (index df1); [done|].
    rewrite Hl1 in H2. done. }
  apply setitem_Ok in H2 as (Hl2 & Hn2 & Hc2); [|done].
  destruct (Hc2 (Hne _ Hl1)) as [Hi2 Hcols2].
  assert (len df2 = 10%nat) as Hlen2 by (unfold len in *; by rewrite Hi2).
  apply setitem_Ok in H3 as (Hl3 & Hn3 & Hc3); [|done].
  destruct (Hc3 (Hne _ Hlen2)) as [Hi3 Hcols3].
  assert (len df3 = 10%nat) as Hlen3 by (unfold len in *; by rewrite Hi3).
  apply setitem_Ok in H4 as (Hl4 & Hn4 & Hc4); [|done].
  destruct (Hc4 (Hne _ Hlen3)) as [Hi4 Hcols4].
  split; [done|]. unfold getitem.
  rewrite Hcols4, Hcols3, Hcols2.
  rewrite lookup_set_column_eq.
  rewrite !(lookup_set_column_ne "condition") by done.
  rewrite lookup_set_column_eq.
  rewrite !(lookup_set_column_ne "age") by done.
  rewrite lookup_set_column_eq.
  rewrite !(lookup_set_column_ne "email") by done.
  rewrite Hn1. unfold str_lower. eauto 6.
Qed.

Section FetcherInvariant.
Variable requests_get : string → outcome.

Lemma fetch_and_clean_data_Ok u out df :
  fetch_and_clean_data requests_get u = (out, Ok df) →
  df = pd_DataFrame ∨ fetched df.
Proof.
  unfold fetch_and_clean_data.
  destruct (fetch requests_get u) as [d|e] eqn:E.
  - intros [= _ <-]. right. unfold fetch in E.
    destruct (requests_get u) as [msg|u' sc reason body]; [done|].
    apply bind_Ok in E as (_ & _ & E).
    apply bind_Ok in E as (data & _ & E). by apply clean_Ok in E.
  - destruct e; try done. intros [= _ <-]. by left.
Qed.

(** X8. Whatever the network answers, a table that fetch_and_clean_data
    returns is either the empty table, or a table of ten rows that carries
    the fixed names, ages and conditions and a text email column. *)
Theorem fetch_and_clean_data_returns u out df :
  fetch_and_clean_data requests_get u = (out, Ok df) →
  df = pd_DataFrame ∨
  (len df = 10%nat ∧
   getitem df "name" = Ok (Object (map Some custom_names)) ∧
   (∃ es, getitem df "email" = Ok (Object es)) ∧
   getitem df "age" = Ok (Int64 simulated_ages) ∧
   getitem df "condition" = Ok (Object (map Some simulated_conditions))).
Proof.
  intros H. destruct (fetch_and_clean_data_Ok u out df H) as [|Hf];
    [by left|by right].
Qed.

(** X9. A payload with a number of rows other than 0 or 10 is not
    absorbed: the ValueError of the first column assignment leaves
    fetch_and_clean_data, and nothing is printed. *)
Theorem fetch_and_clean_data_row_mismatch u u' status_code reason raw :
  requests_get u = Response u' status_code reason (JSON (Records raw)) →
  fetch_fails (requests_get u) = false →
  len raw ≠ 0%nat →
  len raw ≠ 10%nat →
  ∃ msg, fetch_and_clean_data requests_get u = ([], Raise (ValueError msg)).
Proof.
  intros Hget Hok H0 H10. unfold fetch_and_clean_data.
  rewrite (fetch_success requests_get u _ _ _ _ Hget Hok).
  unfold clean. cbn [pd_DataFrame_of bind].
  destruct (setitem_mismatch raw "name" (Object (map Some custom_names)))
    as [msg ->]; [|by simpl; congruence|by eexists].
  intros Hi. unfold len in H0. by rewrite Hi in H0.
Qed.

(** X10. A payload of ten records without an email field is not absorbed
    either: the KeyError of the email lookup leaves fetch_and_clean_data. *)
Theorem fetch_and_clean_data_no_email u u' status_code reason raw :
  requests_get u = Response u' status_code reason (JSON (Records raw)) →
  fetch_fails (requests_get u) = false →
  len raw = 10%nat →
  has_column "email" raw = false →
  fetch_and_clean_data requests_get u
  = ([], Raise (KeyError (StrV "email"))).
Proof.
  intros Hget Hok H10 Hno%has_column_lookup. unfold fetch_and_clean_data.
  rewrite (fetch_success requests_get u _ _ _ _ Hget Hok).
  unfold clean. cbn [pd_DataFrame_of bind].
  rewrite setitem_same_length; [| |by rewrite H10].
  2:{ intros Hi. unfold len in H10. by rewrite Hi in H10. }
  cbn [bind]. unfold getitem. cbn [columns].
  rewrite lookup_set_column_ne by done. by rewrite Hno.
Qed.
End FetcherInvariant.

Lemma fetch_and_clean_data_returns_witness :
  sample_table = pd_DataFrame ∨
  (len sample_table = 10%nat ∧
   getitem sample_table "name" = Ok (Object (map Some custom_names)) ∧
   (∃ es, getitem sample_table "email" = Ok (Object es)) ∧
   getitem sample_table "age" = Ok (Int64 simulated_ages) ∧
   getitem sample_table "condition"
     = Ok (Object (map Some simulated_conditions))).
Proof.
  eapply (fetch_and_clean_data_returns sample_net url _ sample_table).
  reflexivity.
Defined.

Lemma fetch_and_clean_data_row_mismatch_witness :
  ∃ msg, fetch_and_clean_data two_row_net url = ([], Raise (ValueError msg)).
Proof.
  eapply (fetch_and_clean_data_row_mismatch two_row_net url);
    [reflexivity | reflexivity | done | done].
Defined.

Lemma fetch_and_clean_data_no_email_witness :
  fetch_and_clean_data no_email_net url
  = ([], Raise (KeyError (StrV "email"))).
Proof.
  eapply (fetch_and_clean_data_no_email no_email_net url); reflexivity.
Defined.

Lemma existsb_set_column x c s cols :
  existsb (String.eqb x) (map fst (set_column c s cols))
  = existsb (String.eqb x) (map fst cols) || String.eqb x c.
Proof.
  induction cols as [|[c' s'] cols IH]; simpl.
  - by rewrite orb_false_r.
  - destruct (String.eqb_spec c c') as [->|Hne]; simpl.
    + destruct (String.eqb x c'); simpl; [done|]. by rewrite orb_false_r.
    + rewrite IH. by rewrite orb_assoc.
Qed.

Lemma distinct_set_column c s cols :
  distinct (map fst cols) = true →
  distinct (map fst (set_column c s cols)) = true.
Proof.
  induction cols as [|[c' s'] cols IH]; simpl; [done|].
  intros [Hx Hd]%andb_prop.
  destruct (String.eqb_spec c c') as [->|Hne]; simpl.
  - by rewrite Hx, Hd.
  - rewrite existsb_set_column, IH by done.
    apply negb_true_iff in Hx. rewrite Hx. simpl.
    destruct (String.eqb_spec c' c); [congruence|done].
Qed.

Lemma well_formed_set_column idx c s cols :
  well_formed {| index := idx; columns := cols |} = true →
  series_len s = length idx →
  well_formed {| index := idx; columns := set_column c s cols |} = true.
Proof.
  intros [Hd Hl]%well_formed_split Hs. apply well_formed_split.
  simpl in *. split; [by apply distinct_set_column|].
  unfold len in *. simpl in *. clear Hd.
  induction Hl as [|[c' s'] cols Hs' Hl IH]; simpl.
  - by constructor.
  - destruct (String.eqb c c'); by constructor.
Qed.

Lemma lower_char_idemp c : lower_char (lower_char c) = lower_char c.
Proof.
  destruct c as [b0 b1 b2 b3 b4 b5 b6 b7].
  destruct b0, b1, b2, b3, b4, b5, b6, b7; reflexivity.
Qed.

Lemma lower_idemp s : lower (lower s) = lower s.
Proof.
  induction s as [|c s IH]; simpl; [done|]. by rewrite lower_char_idemp, IH.
Qed.

(** X11. From a well-formed payload of ten records with a text email field,
    fetch_and_clean_data returns a well-formed table with the index of the
    payload, whose emails are the payload's in lower case (lower-casing them
    again changes nothing) and whose columns other than name, email, age
    and condition are the payload's, untouched. *)
Theorem fetch_and_clean_data_success (requests_get : string → outcome)
    u u' status_code reason raw es :
  requests_get u = Response u' status_code reason (JSON (Records raw)) →
  fetch_fails (requests_get u) = false →
  well_formed raw = true →
  len raw = 10%nat →
  getitem raw "email" = Ok (Object es) →
  ∃ df,
    fetch_and_clean_data requests_get u = ([], Ok df) ∧
    well_formed df = true ∧
    index df = index raw ∧
    getitem df "email" = Ok (Object (map (option_map lower) es)) ∧
    map (option_map lower) (map (option_map lower) es)
      = map (option_map lower) es ∧
    (∀ c, c ≠ "name" → c ≠ "email" → c ≠ "age" →
          c ≠ "condition" → getitem df c = getitem raw c).
Proof.
  intros Hget Hok Hwf Hlen He.
  pose proof (fetch_success requests_get u _ _ _ _ Hget Hok) as Hfetch.
  rewrite (clean_records raw es Hwf Hlen He) in Hfetch.
  eexists. split.
  { unfold fetch_and_clean_data. by rewrite Hfetch. }
  split; [|split; [done|split; [|split]]].
  - pose proof (well_formed_getitem _ _ _ Hwf He) as Hes. simpl in Hes.
    unfold len in *.
    repeat apply well_formed_set_column;
      try (simpl; rewrite ?length_map; congruence).
    by destruct raw.
  - apply getitem_Ok. cbn [columns].
    rewrite !lookup_set_column_ne by done. by rewrite lookup_set_column_eq.
  - rewrite map_map. apply map_ext. intros [s|]; simpl; [|done].
    by rewrite lower_idemp.
  - intros c Hn Hem Ha Hc. unfold getitem. cbn [columns].
    by rewrite !lookup_set_column_ne by done.
Qed.

Lemma fetch_and_clean_data_success_witness :
  ∃ df,
    fetch_and_clean_data sample_net url = ([], Ok df) ∧
    well_formed df = true ∧
    index df = index sample_raw ∧
    getitem df "email"
      = Ok (Object (map (option_map lower)
                      (map Some
                         [ "Sincere@april.biz"; "Shanna@melissa.tv";
                           "Nathan@yesenia.net"; "Julianne.OConner@kory.org";
                           "Lucio_Hettinger@annie.ca";
                           "Karley_Dach@jasper.info"; "Telly.Hoeger@billy.biz";
                           "Sherwood@rosamond.me"; "Chaim_McDermott@dana.io";
                           "Rey.Padberg@karina.biz" ]))) ∧
    getitem df "id" = getitem sample_raw "id".
Proof.
  edestruct (fetch_and_clean_data_success sample_net url url 200 "OK"
               sample_raw) as (df & H1 & H2 & H3 & H4 & _ & H6);
    [reflexivity..|].
  exists df. repeat split; try done. by apply H6.
Defined.

(** ** The Summarizer: errors and bounds *)

(** X12. On a non-empty table whose emails hold no '@' at all, the frame of
    split fields has no column 1 and analyze_data raises KeyError(1) instead
    of returning a Summary. *)
Theorem analyze_data_no_at df es :
  empty df = false →
  getitem df "email" = Ok (Object es) →
  existsb mentions_at es = false →
  analyze_data df = Raise (KeyError (IntV 1)).
Proof.
  intros Hne He Hat. unfold analyze_data. rewrite Hne, He.
  cbn [bind str_accessor]. by rewrite (expanded_getitem_no_domain es Hat).
Qed.

Lemma analyze_data_no_at_witness :
  analyze_data no_at_table = Raise (KeyError (IntV 1)).
Proof.
  apply (analyze_data_no_at no_at_table [Some "amani"; None; Some "juma"]);
    reflexivity.
Defined.

(** X13. On a non-empty table analyze_data reads the email, condition and
    age columns in this order, and the first one that is missing raises the
    KeyError of its label; an email column of integers raises
    AttributeError. *)
Theorem analyze_data_missing_column df :
  empty df = false →
  (has_column "email" df = false →
   analyze_data df = Raise (KeyError (StrV "email"))) ∧
  (∀ vs, getitem df "email" = Ok (Int64 vs) →
   ∃ msg, analyze_data df = Raise (AttributeError msg)) ∧
  (∀ es, getitem df "email" = Ok (Object es) →
         existsb mentions_at es = true →
         has_column "condition" df = false →
   analyze_data df = Raise (KeyError (StrV "condition"))) ∧
  (∀ es c, getitem df "email" = Ok (Object es) →
           existsb mentions_at es = true →
           getitem df "condition" = Ok c →
           has_column "age" df = false →
   analyze_data df = Raise (KeyError (StrV "age"))).
Proof.
  intros Hne. unfold analyze_data. rewrite Hne.
  split; [|split; [|split]].
  - intros H%has_column_lookup. by rewrite (getitem_KeyError _ _ H).
  - intros vs ->. simpl. eauto.
  - intros es -> Hat H%has_column_lookup. cbn [bind str_accessor].
    rewrite (expanded_getitem_domains es Hat). cbn [bind].
    by rewrite (getitem_KeyError _ _ H).
  - intros es c -> Hat -> H%has_column_lookup. cbn [bind str_accessor].
    rewrite (expanded_getitem_domains es Hat). cbn [bind].
    by rewrite (getitem_KeyError _ _ H).
Qed.

Lemma analyze_data_missing_column_witness :
  analyze_data sample_raw_text = Raise (KeyError (StrV "condition")).
Proof.
  destruct (analyze_data_missing_column sample_raw_text eq_refl)
    as (_ & _ & H & _).
  apply (H [Some "amani@example.com"; Some "neema@example.com"]);
    reflexivity.
Defined.

Lemma size_list_to_set_le (l : list string) :
  (size (list_to_set l : gset string) ≤ length l)%nat.
Proof.
  induction l as [|x l IH]; [done|].
  rewrite list_to_set_cons, size_union_alt, size_singleton.
  assert (size (list_to_set l ∖ {[x]} : gset string)
          ≤ size (list_to_set l : gset string))%nat
    by (apply subseteq_size, subseteq_difference_l; done).
  simpl. lia.
Qed.

Lemma length_omap_le {A B} (f : A → option B) (l : list A) :
  (length (omap f l) ≤ length l)%nat.
Proof.
  induction l as [|x l IH]; csimpl; [done|]. destruct (f x); simpl; lia.
Qed.

Lemma nunique_le vs : (nunique vs ≤ length vs)%nat.
Proof.
  unfold nunique. etrans; [apply size_list_to_set_le|apply length_omap_le].
Qed.

Lemma length_present_le s : (length (present s) ≤ series_len s)%nat.
Proof.
  destruct s as [vs|vs]; simpl; [by rewrite length_map|apply length_omap_le].
Qed.

(** X14. In every Summary that analyze_data returns for a well-formed
    table, the number of distinct domains and the sum of the condition
    counts are at most total_patients. *)
Theorem analyze_data_bounds df s :
  well_formed df = true →
  analyze_data df = Ok s →
  (unique_domains s ≤ total_patients s)%nat ∧
  (sum_counts (condition_counts s) ≤ total_patients s)%nat.
Proof.
  intros Hwf Hs. destruct (empty df) eqn:Hempty.
  - rewrite (analyze_data_empty df Hempty) in Hs. injection Hs as <-.
    simpl. split; [done|]. unfold sum_counts. by rewrite map_fold_empty.
  - apply analyze_data_Ok in Hs as (es & c & a & m & He & _ & Hc & _ & _ & ->);
      [|done].
    simpl. split.
    + etrans; [apply nunique_le|]. rewrite length_map.
      by rewrite <- (well_formed_getitem _ _ _ Hwf He).
    + rewrite sum_counts_value_counts.
      etrans; [apply length_present_le|].
      by rewrite (well_formed_getitem _ _ _ Hwf Hc).
Qed.

Lemma analyze_data_bounds_witness :
  ∃ s, analyze_data shared_domain_table = Ok s ∧
       (unique_domains s ≤ total_patients s)%nat ∧
       (sum_counts (condition_counts s) ≤ total_patients s)%nat.
Proof.
  eexists. split; [reflexivity|].
  eapply (analyze_data_bounds shared_domain_table); reflexivity.
Defined.
(** ** Analyzing a filtered table *)

(** X16. Analyzing a filtered table: total_patients is the number of ages
    of the input that lie in the range, and the condition counts are those
    of the rows whose age lies in the range. *)
Theorem analyze_data_filter_by_age df ages min_age max_age :
  well_formed df = true →
  getitem df "age" = Ok (Int64 ages) →
  ∃ df',
    filter_by_age df min_age max_age = ([], Ok df') ∧
    ∀ s, analyze_data df' = Ok s →
         total_patients s
         = length (List.filter (between min_age max_age) ages) ∧
         (total_patients s ≠ 0%nat →
          ∃ c, getitem df "condition" = Ok c ∧
               condition_counts s
               = value_counts
                   (series_select (map (between min_age max_age) ages) c)).
Proof.
  intros Hwf Hage. set (m := map (between min_age max_age) ages).
  exists (getitem_mask df m). split; [by apply filter_by_age_int|].
  pose proof (well_formed_getitem_mask df m Hwf) as Hwf'.
  pose proof (getitem_getitem_mask df "age" _ m Hage) as Hage'.
  simpl in Hage'.
  pose proof (well_formed_getitem _ _ _ Hwf' Hage') as Hlen.
  cbn [series_len] in Hlen.
  unfold m in Hlen at 1. rewrite select_filter in Hlen.
  intros s Hs. destruct (empty (getitem_mask df m)) eqn:Hempty.
  - rewrite (analyze_data_empty _ Hempty) in Hs. injection Hs as <-.
    simpl. split; [|done]. rewrite Hlen.
    apply empty_iff in Hempty as [->|Hcols]; [done|].
    apply getitem_Ok in Hage'. by rewrite Hcols in Hage'.
  - destruct (analyze_data_inv _ s Hempty Hs) as (Htot & c' & Hc' & Hcounts).
    split; [by rewrite Htot, Hlen|]. intros _.
    destruct (getitem df "condition") as [c|e] eqn:Hc.
    + exists c. split; [done|].
      rewrite (getitem_getitem_mask df "condition" c m Hc) in Hc'.
      by injection Hc' as <-.
    + exfalso. apply getitem_Ok in Hc'. simpl in Hc'.
      unfold getitem in Hc.
      destruct (lookup_column "condition" (columns df)) eqn:E; [done|].
      by rewrite lookup_column_select, E in Hc'.
Qed.

Lemma analyze_data_filter_by_age_witness :
  ∃ df',
    filter_by_age sample_table 30 45 = ([], Ok df') ∧
    ∀ s, analyze_data df' = Ok s →
         total_patients s
         = length (List.filter (between 30 45) simulated_ages) ∧
         (total_patients s ≠ 0%nat →
          ∃ c, getitem sample_table "condition" = Ok c ∧
               condition_counts s
               = value_counts
                   (series_select (map (between 30 45) simulated_ages) c)).
Proof.
  apply (analyze_data_filter_by_age sample_table simulated_ages 30 45);
    reflexivity.
Defined.

(** ** Sessions the menu loop can reach *)

Lemma fetched_not_empty df : fetched df → empty df = false.
Proof.
  intros (Hlen & Hname & _). unfold empty, len in *.
  destruct (index df); [done|].
  apply getitem_Ok in Hname. by destruct (columns df).
Qed.

Lemma fetched_filter df min_age max_age :
  fetched df →
  filter_by_age df min_age max_age
  = ([], Ok (getitem_mask df (map (between min_age max_age) simulated_ages))).
Proof. intros (_ & _ & _ & Hage & _). by apply filter_by_age_int. Qed.

Lemma value_counts_empty s : value_counts s = ∅ ↔ present s = [].
Proof.
  unfold value_counts. destruct (present s) as [|v l]; simpl; [done|].
  split; [|done]. unfold count_one. intros H.
  by apply insert_non_empty in H.
Qed.

Lemma analyze_data_returns df es c ages :
  empty df = false →
  getitem df "email" = Ok (Object es) →
  existsb mentions_at es = true →
  getitem df "condition" = Ok c →
  getitem df "age" = Ok (Int64 ages) →
  ∃ m, analyze_data df
       = Ok {| total_patients := len df;
               unique_domains := nunique (map second_field es);
               condition_counts := value_counts c;
               mean_age := PyFloat m |}.
Proof.
  intros Hne He Hat Hc Ha. destruct (series_mean_int ages) as [m Hm].
  exists (round m 2). unfold analyze_data.
  rewrite Hne, He. cbn [bind str_accessor].
  rewrite (expanded_getitem_domains es Hat). cbn [bind].
  rewrite Hc. cbn [bind]. rewrite Ha. cbn [bind]. by rewrite Hm.
Qed.

Section SessionInvariant.
Variable requests_get : string → outcome.
Variable int_ : string → option Z.
Variable open_error : string → option string.

Abbreviation step := (menu_pass requests_get int_ open_error).

Lemma pass_inv st stdin out c st' rest :
  step st stdin = (out, Ok (c, st', rest)) →
  ∃ choice rest0,
    stdin = choice :: rest0 ∧
    ((choice = "1" ∧
      ∃ o df, fetch_and_clean_data requests_get url = (o, Ok df) ∧
              st' = {| patient_data := df; filtered_data := pd_DataFrame |}) ∨
     (choice = "2" ∧ empty (patient_data st) = false ∧
      ∃ o min_age max_age r o2 f,
        get_age_range int_ rest0 = (o, Ok (min_age, max_age, r)) ∧
        filter_by_age (patient_data st) min_age max_age = (o2, Ok f) ∧
        st' = {| patient_data := patient_data st; filtered_data := f |}) ∨
     (choice ≠ "1" ∧ st' = st)).
Proof.
  unfold menu_pass, menu, input, print.
  destruct stdin as [|choice rest0]; [done|].
  intros H. exists choice, rest0. split; [done|]. revert H.
  destruct (String.eqb_spec choice "1") as [->|H1].
  { unfold io_bind, pure.
    destruct (fetch_patient_data _ _) as [o [x|e]] eqn:E; [|done].
    intros [= _ _ <- _]. left. split; [done|]. revert E.
    unfold fetch_patient_data, io_bind, print, pure.
    destruct (fetch_and_clean_data _ _) as [o' [df|e]]; [|done].
    destruct (negb (empty df)); intros [= _ <-]; eauto. }
  destruct (String.eqb_spec choice "2") as [->|H2].
  { unfold io_bind at 1, pure.
    destruct (filter_patients_by_age _ _ _) as [o [[x r]|e]] eqn:E; [|done].
    intros [= _ _ <- _]. simpl.
    revert E. unfold filter_patients_by_age, print, pure.
    destruct (empty (patient_data st)) eqn:Hem.
    - intros [= _ <- _]. by right; right.
    - unfold io_bind at 1.
      destruct (get_age_range int_ rest0) as [o1 [[[lo hi] r1]|e1]] eqn:Eg;
        [|done].
      unfold io_bind.
      destruct (filter_by_age _ _ _) as [o2 [f|e2]] eqn:Ef; [|done].
      destruct (getitem_list f _); [|done].
      intros [= _ <- _]. right; left. split; [done|]. split; [done|].
      by exists o1, lo, hi, r1, o2, f. }
  destruct (String.eqb choice "3").
  { unfold io_bind at 1, pure.
    destruct (view_analysis _ _) as [o [x|e]] eqn:E; [|done].
    intros [= _ _ <- _]. right; right. split; [done|]. revert E.
    unfold view_analysis, print, pure.
    destruct (empty (patient_data st)); [by intros [= _ <-]|].
    unfold io_bind.
    destruct (analyze_data _) as [a|]; [|done].
    destruct (visualize_data _ _ _) as [o1 [[]|]]; [|done].
    destruct (save_analysis _ _ _) as [o2 [[]|]]; [|done].
    by intros [= _ <-]. }
  destruct (String.eqb choice "4"); unfold pure; intros [= _ _ <- _];
    by right; right.
Qed.

Lemma session_inv_pass st stdin out c st' rest :
  session_inv st →
  step st stdin = (out, Ok (c, st', rest)) →
  session_inv st'.
Proof.
  intros [Hp Hf] (choice & rest0 & -> & Hcases)%pass_inv.
  destruct Hcases as [(-> & o & df & Hfetch & ->)
                     |[(-> & Hem & o & lo & hi & r & o2 & f & Hg & Hfl & ->)
                      |(_ & ->)]]; [| |done].
  - split; simpl; [|by left].
    apply (fetch_and_clean_data_Ok requests_get url o df Hfetch).
  - split; simpl; [done|]. right.
    destruct Hp as [Hp|Hp]; [by rewrite Hp in Hem|].
    rewrite (fetched_filter _ lo hi Hp) in Hfl. injection Hfl as <- <-.
    exists lo, hi. split; [|by apply fetched_filter].
    by apply (get_age_range_lines int_ _ _ _ _ _ _ (Nat.le_refl _))
      in Hg as (_ & _ & _ & _ & _ & _ & Hr).
Qed.

Lemma reachable_inv st :
  reachable requests_get int_ open_error st → session_inv st.
Proof.
  induction 1 as [|st stdin out c st' rest _ IH Hpass].
  - split; by left.
  - by apply (session_inv_pass st stdin out c st' rest).
Qed.

(** X17. In every session the menu loop can reach, "current" is the empty
    table or a ten-row table built by the Fetcher, and "filtered" is the
    empty table or the result of filtering "current" by a range that passed
    the validation 0 <= min_age <= max_age. *)
Theorem reachable_session_inv st :
  reachable requests_get int_ open_error st → session_inv st.
Proof. apply reachable_inv. Qed.

Lemma fetched_view df m :
  fetched df →
  ∃ shown, getitem_list (getitem_mask df m) ["name"; "age"; "condition"]
           = Ok shown.
Proof.
  intros (_ & Hn & _ & Ha & Hc). unfold getitem_list, getitem_columns.
  rewrite (getitem_getitem_mask _ _ _ m Hn). cbn [bind].
  rewrite (getitem_getitem_mask _ _ _ m Ha). cbn [bind].
  rewrite (getitem_getitem_mask _ _ _ m Hc). cbn [bind]. eauto.
Qed.

Lemma filter_command_raises st stdin out e :
  session_inv st →
  step st ("2" :: stdin) = (out, Raise e) →
  e = EOFError.
Proof.
  intros [Hp _]. unfold menu_pass, menu, input, print. simpl.
  unfold io_bind at 1, pure.
  destruct (filter_patients_by_age _ _ _) as [o [[x r]|e']] eqn:E; [done|].
  intros [= _ <-]. revert E. unfold filter_patients_by_age, print, pure.
  destruct (empty (patient_data st)) eqn:Hem; [done|].
  destruct Hp as [Hp|Hp]; [by rewrite Hp in Hem|].
  unfold io_bind at 1.
  destruct (get_age_range int_ stdin) as [o1 [[[lo hi] r1]|e1]] eqn:Eg.
  - rewrite (fetched_filter _ lo hi Hp). unfold io_bind.
    destruct (fetched_view _ (map (between lo hi) simulated_ages) Hp)
      as [shown Hshown].
    by rewrite Hshown.
  - intros [= _ <-].
    by apply (get_age_range_raises int_ _ _ _ _ (Nat.le_refl _)) in Eg.
Qed.

(** X18. In a session the menu loop can reach, the filter command cannot
    fail on the table: the only exception that leaves it is the EOFError of
    an exhausted input; "Age column not found." and the KeyError of the
    printed name/age/condition view do not occur. *)
Theorem filter_command_safe st stdin out e :
  reachable requests_get int_ open_error st →
  menu_pass requests_get int_ open_error st ("2" :: stdin)
    = (out, Raise e) →
  e = EOFError.
Proof.
  intros Hr. apply filter_command_raises. by apply reachable_inv.
Qed.

Lemma report_target_columns st :
  session_inv st →
  empty (patient_data st) = false →
  ∃ es c ages,
    empty (report_target st) = false ∧
    getitem (report_target st) "email" = Ok (Object es) ∧
    getitem (report_target st) "condition" = Ok c ∧
    getitem (report_target st) "age" = Ok (Int64 ages) ∧
    present c ≠ [].
Proof.
  intros [Hp Hf] Hne. unfold report_target.
  destruct Hp as [Hp|Hp]; [by rewrite Hp in Hne|].
  pose proof Hp as (Hlen & _ & [es He] & Ha & Hc).
  destruct (empty (filtered_data st)) eqn:Hfe.
  { exists es, (Object (map Some simulated_conditions)), simulated_ages.
    by repeat split. }
  destruct Hf as [Hf|(lo & hi & _ & Hf)]; [by rewrite Hf in Hfe|].
  rewrite (fetched_filter _ lo hi Hp) in Hf.
  set (m := map (between lo hi) simulated_ages) in *.
  assert (filtered_data st = getitem_mask (patient_data st) m) as Hfm
    by congruence.
  rewrite Hfm in *. clear Hf Hfm.
  exists (select m es),
    (series_select m (Object (map Some simulated_conditions))),
    (select m simulated_ages).
  split; [done|].
  split; [|split; [|split]].
  - apply (getitem_getitem_mask _ _ _ m He).
  - apply (getitem_getitem_mask _ _ _ m Hc).
  - apply (getitem_getitem_mask _ _ _ m Ha).
  - cbn [series_select present]. rewrite select_map.
    assert (select m simulated_conditions ≠ []) as Hsel.
    { intros Hnil.
      assert (length (select m (index (patient_data st))) = 0%nat) as H0.
      { rewrite (length_select m _ simulated_conditions); [by rewrite Hnil|].
        exact Hlen. }
      unfold empty in Hfe. cbn [index getitem_mask] in Hfe.
      by destruct (select m (index (patient_data st))). }
    destruct (select m simulated_conditions); [done|]. by csimpl.
Qed.

Lemma report_raises st :
  session_inv st →
  empty (patient_data st) = false →
  ∃ es,
    getitem (report_target st) "email" = Ok (Object es) ∧
    view_analysis open_error st
    = ([], Raise (if existsb mentions_at es then plt_unbound
                  else KeyError (IntV 1))).
Proof.
  intros Hinv Hne.
  destruct (report_target_columns st Hinv Hne)
    as (es & c & ages & Hte & He & Hc & Ha & Hpc).
  exists es. split; [done|].
  rewrite (view_analysis_cases open_error st Hne).
  destruct (existsb mentions_at es) eqn:Hat.
  - destruct (analyze_data_returns _ es c ages Hte He Hat Hc Ha) as [m ->].
    cbn [condition_counts]. rewrite bool_decide_eq_false_2; [done|].
    by rewrite value_counts_empty.
  - by rewrite (analyze_data_no_domain _ es Hte He Hat).
Qed.

(** X19. In a session the menu loop can reach, the report command never
    completes once a table is loaded: with a non-empty "current" it raises
    KeyError(1) when no email of the reported table holds an '@', and the
    NameError of the unbound name plt otherwise; either way it prints
    nothing and writes no file. *)
Theorem report_command_raises st :
  reachable requests_get int_ open_error st →
  empty (patient_data st) = false →
  ∃ es,
    getitem (report_target st) "email" = Ok (Object es) ∧
    view_analysis open_error st
    = ([], Raise (if existsb mentions_at es then plt_unbound
                  else KeyError (IntV 1))).
Proof. intros Hr. apply report_raises. by apply reachable_inv. Qed.

(** X20. A pass of the menu loop changes "current" only on the choice
    "1", and "filtered" only on the choices "1" and "2". *)
Theorem menu_pass_frame st stdin out c st' rest :
  menu_pass requests_get int_ open_error st stdin
    = (out, Ok (c, st', rest)) →
  (patient_data st' ≠ patient_data st → head stdin = Some "1") ∧
  (filtered_data st' ≠ filtered_data st →
   head stdin = Some "1" ∨ head stdin = Some "2").
Proof.
  intros (choice & rest0 & -> & Hcases)%pass_inv. simpl.
  destruct Hcases as [(-> & _)
                     |[(-> & _ & o & lo & hi & r & o2 & f & _ & _ & ->)
                      |(_ & ->)]].
  - split; intros _; [done|by left].
  - split; simpl; [done|by right].
  - split; done.
Qed.

(** X23. The first report after a successful load ends the program: when
    the fetch returns a table with rows, main on the input lines "1", "3"
    and whatever follows ends with an exception right after the second
    menu, the NameError of the unbound name plt or, when no email holds an
    '@', KeyError(1); the lines after "3" are never read. *)
Theorem main_report_raises stdin out df :
  fetch_and_clean_data requests_get url = (out, Ok df) →
  empty df = false →
  ∃ out1 out2 e,
    menu_pass requests_get int_ open_error empty_session
      ("1" :: "3" :: stdin)
    = (out1, Ok (Continue,
                 {| patient_data := df; filtered_data := pd_DataFrame |},
                 "3" :: stdin)) ∧
    menu_pass requests_get int_ open_error
      {| patient_data := df; filtered_data := pd_DataFrame |}
      ("3" :: stdin)
    = (out2, Raise e) ∧
    main requests_get int_ open_error ("1" :: "3" :: stdin)
    = Some (Print [] ::
            Print [Lit "Welcome to the Sunrise Hospital EMR System"] ::
            out1 ++ out2, Raise e) ∧
    (e = plt_unbound ∨ e = KeyError (IntV 1)).
Proof.
  intros Hfetch Hne.
  pose proof (pass_fetch requests_get int_ open_error empty_session
                ("3" :: stdin)) as H1.
  rewrite Hfetch in H1. destruct H1 as [out1 H1].
  set (st := {| patient_data := df; filtered_data := pd_DataFrame |}) in *.
  assert (session_inv st) as Hinv.
  { split; simpl; [|by left].
    apply (fetch_and_clean_data_Ok requests_get url out df Hfetch). }
  destruct (report_raises st Hinv Hne) as (es & _ & Hv).
  set (e := if existsb mentions_at es then plt_unbound
            else KeyError (IntV 1)) in *.
  assert (∃ out2, step st ("3" :: stdin) = (out2, Raise e)) as [out2 H2].
  { unfold menu_pass, menu, input, print. simpl.
    unfold io_bind at 1. rewrite Hv. eauto. }
  exists out1, out2, e. split; [done|]. split; [done|]. split.
  - unfold main. cbn [length main_loop].
    fold empty_session. rewrite H1. by rewrite H2.
  - unfold e. destruct (existsb mentions_at es); auto.
Qed.
End SessionInvariant.

Lemma reachable_sample_session :
  reachable sample_net sample_int (λ _, None) sample_session.
Proof.
  eapply (reachable_pass _ _ _ empty_session ["1"]);
    [apply reachable_start | reflexivity].
Defined.

Lemma reachable_session_inv_witness : session_inv sample_session.
Proof.
  apply (reachable_session_inv sample_net sample_int (λ _, None)).
  apply reachable_sample_session.
Defined.

Lemma filter_command_safe_witness :
  ∃ out e,
    menu_pass sample_net sample_int (λ _, None) sample_session
      ["2"; "45"; "30"; "x"] = (out, Raise e) ∧
    e = EOFError.
Proof.
  eexists _, _. split; [reflexivity|].
  eapply (filter_command_safe sample_net sample_int (λ _, None)
            sample_session ["45"; "30"; "x"]);
    [apply reachable_sample_session | reflexivity].
Defined.

Lemma menu_pass_frame_witness :
  ∃ out c st' rest,
    menu_pass sample_net sample_int (λ _, None) sample_session
      ["2"; "30"; "45"; "3"] = (out, Ok (c, st', rest)) ∧
    (patient_data st' ≠ patient_data sample_session →
     head ["2"; "30"; "45"; "3"] = Some "1") ∧
    (filtered_data st' ≠ filtered_data sample_session →
     head ["2"; "30"; "45"; "3"] = Some "1" ∨
     head ["2"; "30"; "45"; "3"] = Some "2").
Proof.
  eexists _, _, _, _. split; [reflexivity|].
  eapply (menu_pass_frame sample_net sample_int (λ _, None)). reflexivity.
Defined.

Lemma main_report_raises_witness :
  ∃ out',
    main sample_net sample_int (λ _, None) ["1"; "3"; "4"]
    = Some (out', Raise plt_unbound).
Proof.
  destruct (main_report_raises sample_net sample_int (λ _, None) ["4"]
              [] sample_table eq_refl eq_refl)
    as (out1 & out2 & e & H1 & H2 & Hmain & _).
  vm_compute in H2. injection H2 as _ <-.
  eexists. exact Hmain.
Defined.

Lemma reachable_no_at_session :
  reachable no_at_net sample_int (λ _, None) no_at_session.
Proof.
  eapply (reachable_pass _ _ _ empty_session ["1"]);
    [apply reachable_start | reflexivity].
Defined.

Lemma report_command_raises_witness :
  view_analysis (λ _, None) sample_session = ([], Raise plt_unbound) ∧
  view_analysis (λ _, None) no_at_session = ([], Raise (KeyError (IntV 1))).
Proof.
  split.
  - destruct (report_command_raises sample_net sample_int (λ _, None)
                sample_session reachable_sample_session eq_refl)
      as (es & He & Hv).
    vm_compute in He. injection He as <-. exact Hv.
  - destruct (report_command_raises no_at_net sample_int (λ _, None)
                no_at_session reachable_no_at_session eq_refl)
      as (es & He & Hv).
    vm_compute in He. injection He as <-. exact Hv.
Defined.

(** ** Charts *)

(** X21. Charting a Summary that analyze_data returned for a non-empty
    table: when every condition of the table is missing, visualize_data
    prints "No data to visualize." and returns; otherwise it raises the
    NameError of the unbound name plt at its first chart call, having
    printed nothing and saved no chart. *)
Theorem visualize_data_after_analyze df s filtered :
  empty df = false →
  analyze_data df = Ok s →
  ∃ c,
    getitem df "condition" = Ok c ∧
    (present c = [] →
     visualize_data s df filtered
     = ([Print [Lit "No data to visualize."]], Ok tt)) ∧
    (present c ≠ [] →
     visualize_data s df filtered = ([], Raise plt_unbound)).
Proof.
  intros Hne Hs.
  apply analyze_data_Ok in Hs as (es & c & a & m & _ & _ & Hc & _ & _ & ->);
    [|done].
  exists c. split; [done|].
  unfold visualize_data. cbn [condition_counts]. split.
  - intros Hp%value_counts_empty. rewrite Hp.
    by rewrite bool_decide_eq_true_2.
  - intros Hp. rewrite bool_decide_eq_false_2; [done|].
    by rewrite value_counts_empty.
Qed.

Lemma visualize_data_after_analyze_witness :
  (∃ s, analyze_data sample_table = Ok s ∧
        visualize_data s sample_table false = ([], Raise plt_unbound)) ∧
  (∃ s, analyze_data no_condition_table = Ok s ∧
        visualize_data s no_condition_table false
        = ([Print [Lit "No data to visualize."]], Ok tt)).
Proof.
  split.
  - eexists. split; [reflexivity|].
    edestruct (visualize_data_after_analyze sample_table _ false eq_refl
                 eq_refl) as (c & Hc & _ & H).
    apply H. vm_compute in Hc. by injection Hc as <-.
  - eexists. split; [reflexivity|].
    edestruct (visualize_data_after_analyze no_condition_table _ false
                 eq_refl eq_refl) as (c & Hc & H & _).
    apply H. vm_compute in Hc. by injection Hc as <-.
Defined.
(** ** The Summary of a fetched table *)

(** X15. After a successful fetch of ten records in whose emails there is
    an '@', analyze_data returns the Summary with total_patients 10, the
    number of distinct second '@'-fields of the lower-cased emails, the
    counts Flu 3, Hypertension 3, Diabetes 2, Fever 2, and the mean age
    40.5, which the float64 mean of the fixed ages and its rounding to two
    decimals both give exactly. *)
Theorem analyze_data_fetched (requests_get : string → outcome)
    u u' status_code reason raw es :
  requests_get u = Response u' status_code reason (JSON (Records raw)) →
  fetch_fails (requests_get u) = false →
  well_formed raw = true →
  len raw = 10%nat →
  getitem raw "email" = Ok (Object es) →
  existsb mentions_at es = true →
  ∃ df,
    fetch_and_clean_data requests_get u = ([], Ok df) ∧
    analyze_data df
    = Ok {| total_patients := 10;
            unique_domains :=
              nunique (map second_field (map (option_map lower) es));
            condition_counts :=
              <[StrV "Flu" := 3%nat]> (<[StrV "Hypertension" := 3%nat]>
                (<[StrV "Diabetes" := 2%nat]> (<[StrV "Fever" := 2%nat]> ∅)));
            mean_age := PyFloat 40.5 |}.
Proof.
  intros Hget Hok Hwf Hlen He Hat.
  pose proof (fetch_success requests_get u _ _ _ _ Hget Hok) as Hfetch.
  rewrite (clean_records raw es Hwf Hlen He) in Hfetch.
  eexists. split.
  { unfold fetch_and_clean_data. by rewrite Hfetch. }
  match goal with |- analyze_data ?d = _ =>
    destruct (analyze_data_valid d (map (option_map lower) es)
                (map Some simulated_conditions) simulated_ages)
      as (m & Hm & ->)
  end.
  - unfold empty, len in *. simpl. destruct (index raw); [done|].
    destruct (set_column _ _ _) eqn:E;
      [by apply set_column_nonempty in E|done].
  - apply getitem_Ok. cbn [columns].
    rewrite !lookup_set_column_ne by done. by rewrite lookup_set_column_eq.
  - apply getitem_Ok. cbn [columns]. by rewrite lookup_set_column_eq.
  - apply getitem_Ok. cbn [columns].
    rewrite lookup_set_column_ne by done. by rewrite lookup_set_column_eq.
  - rewrite <- Hat. clear. induction es as [|[s|] es IH]; simpl; [done| |done].
    by rewrite occurrences_lower, IH.
  - injection Hm as <-. unfold len in *. cbn [index]. rewrite Hlen.
    reflexivity.
Qed.

Lemma analyze_data_fetched_witness :
  ∃ df,
    fetch_and_clean_data sample_net url = ([], Ok df) ∧
    analyze_data df
    = Ok {| total_patients := 10;
            unique_domains := 10;
            condition_counts :=
              <[StrV "Flu" := 3%nat]> (<[StrV "Hypertension" := 3%nat]>
                (<[StrV "Diabetes" := 2%nat]> (<[StrV "Fever" := 2%nat]> ∅)));
            mean_age := PyFloat 40.5 |}.
Proof.
  destruct (analyze_data_fetched sample_net url url 200 "OK" sample_raw
           (map Some
              [ "Sincere@april.biz"; "Shanna@melissa.tv"; "Nathan@yesenia.net";
                "Julianne.OConner@kory.org"; "Lucio_Hettinger@annie.ca";
                "Karley_Dach@jasper.info"; "Telly.Hoeger@billy.biz";
                "Sherwood@rosamond.me"; "Chaim_McDermott@dana.io";
                "Rey.Padberg@karina.biz" ])
           eq_refl eq_refl eq_refl eq_refl eq_refl eq_refl) as (df & Hf & Ha).
  exists df. split; [exact Hf|]. rewrite Ha. reflexivity.
Defined.

(** ** Every row in one bucket *)

(** X22. For every well-formed table with rows and columns, every Summary
    that analyze_data returns counts each row once: total_patients is the
    row count, the count of a condition is the number of rows that carry
    it, a condition that no row carries is not a key, the counts add up to
    the number of rows whose condition is not missing, and so to the row
    count when no condition is missing. A Summary is returned for every
    such table that has a text email column with an '@' in some email, a
    text condition column and an integer age column. *)
Theorem condition_counts_rows df :
  well_formed df = true →
  empty df = false →
  (valid_table df = true → ∃ s, analyze_data df = Ok s) ∧
  (∀ s, analyze_data df = Ok s →
        ∃ c,
          getitem df "condition" = Ok c ∧
          total_patients s = len df ∧
          (∀ v, default 0%nat (condition_counts s !! v)
                = count_occ scalar_eq_dec (present c) v) ∧
          (∀ v n, condition_counts s !! v = Some n → (0 < n)%nat) ∧
          sum_counts (condition_counts s) = length (present c) ∧
          (all_present c = true →
           sum_counts (condition_counts s) = len df)).
Proof.
  intros Hwf Hne. split.
  - intros Hvalid.
    destruct (valid_table_columns df Hvalid)
      as (es & cs & ages & He & Hc & Ha & Hat).
    destruct (analyze_data_valid df es cs ages) as (m & _ & Hs); try done.
    eauto.
  - intros s Hs.
    destruct (analyze_data_inv df s Hne Hs) as (Htot & c & Hc & Hcounts).
    exists c. rewrite Hcounts. split; [done|]. split; [done|].
    split; [apply value_counts_lookup|].
    split; [apply value_counts_positive|].
    split; [apply sum_counts_value_counts|].
    intros Hall. rewrite sum_counts_value_counts, length_present by done.
    apply (well_formed_getitem _ _ _ Hwf Hc).
Qed.

Lemma condition_counts_rows_witness :
  ∃ s c,
    analyze_data shared_domain_table = Ok s ∧
    getitem shared_domain_table "condition" = Ok c ∧
    total_patients s = 3%nat ∧
    condition_counts s !! StrV "Flu" = Some 2%nat ∧
    condition_counts s !! StrV "Fever" = Some 1%nat ∧
    condition_counts s !! StrV "Diabetes" = None ∧
    sum_counts (condition_counts s) = 3%nat.
Proof.
  destruct (condition_counts_rows shared_domain_table eq_refl eq_refl)
    as [Hex Hall].
  destruct (Hex eq_refl) as [s Hs].
  destruct (Hall s Hs) as (c & Hc & Htot & _ & _ & _ & Hsum).
  exists s, c. split; [exact Hs|]. split; [exact Hc|].
  split; [exact Htot|].
  vm_compute in Hs. injection Hs as <-.
  vm_compute in Hc. injection Hc as <-.
  split; [reflexivity|]. split; [reflexivity|]. split; [reflexivity|].
  apply Hsum. reflexivity.
Defined.
